(** * literature-feed: a shallow embedding of [src/generate_feeds.py]

    The script loads a YAML configuration, queries the OpenAlex works
    endpoint once per configured query, scores every returned work by the
    2-year mean citedness of its journal (memoised in the module-level
    dictionary [journal_cache]), keeps the works at or above the configured
    threshold, sorts them by publication date and hands them to feedgen.

    Python values are embedded as the inductive type [json]; Python
    exceptions as the [Raise] branch of [result]; the module-level cache,
    the network requests issued so far, the lines printed and the files
    written form the explicit [state] threaded by the monad [M].  What the
    script obtains from outside (HTTP responses, the file system, the YAML
    and ISO-date parsers of the libraries) is a field of the record
    [World], over which every theorem quantifies. *)

From Stdlib Require Import ZArith List Ascii String Permutation Sorted Lia.
From Stdlib Require Import SpecFloat.
From Stdlib Require OrderedTypeEx.
From stdpp Require Import gmap strings list sorting pretty.

Set Warnings "-register-all".

Local Open Scope string_scope.

(** ** Python values *)

(** Python floats are IEEE-754 binary64 numbers; [spec_float] is the
    Standard Library's computable description of them. *)
Abbreviation float := spec_float.

(** The literal [0.0]. *)
Definition zero : float := S754_zero false.

(** Values produced by [response.json()] and [yaml.safe_load].  A [dict]
    keeps its insertion order (the orchestrator iterates over
    [config["queries"].items()]), hence the association list.  Strings are
    sequences of UTF-8 bytes: byte-wise lexicographic order is code-point
    order, and no ASCII byte occurs inside a multi-byte sequence. *)
Inductive json : Type :=
| JNull
| JBool (b : bool)
| JInt (z : Z)
| JFloat (f : float)
| JStr (s : string)
| JList (l : list json)
| JDict (d : list (string * json)).

(** ** Exceptions *)

(** The exception classes the modelled operations raise.  Each of them
    derives from [Exception], the class named by the two [except] clauses
    of the script. *)
Inductive exn_class : Type :=
| AttributeError | KeyError | TypeError | ValueError | OverflowError
| OSError | YAMLError | RequestException.

Record exn : Type := Exn { exn_cls : exn_class; exn_arg : string }.

Inductive result (A : Type) : Type :=
| Ok (a : A)
| Raise (e : exn).
Arguments Ok {A} a.
Arguments Raise {A} e.

Definition rbind {A B} (r : result A) (k : A -> result B) : result B :=
  match r with Ok a => k a | Raise e => Raise e end.

Fixpoint rmap_list {A B} (f : A -> result B) (l : list A) : result (list B) :=
  match l with
  | [] => Ok []
  | x :: xs =>
      rbind (f x) (fun y => rbind (rmap_list f xs) (fun ys => Ok (y :: ys)))
  end.

(** ** Built-in operations on values *)

Definition type_name (v : json) : string :=
  match v with
  | JNull => "NoneType" | JBool _ => "bool" | JInt _ => "int"
  | JFloat _ => "float" | JStr _ => "str" | JList _ => "list"
  | JDict _ => "dict"
  end.

Definition no_attribute (v : json) (attr : string) : exn :=
  Exn AttributeError
      ("'" +:+ type_name v +:+ "' object has no attribute '" +:+ attr +:+ "'").

Fixpoint assoc (k : string) (d : list (string * json)) : option json :=
  match d with
  | [] => None
  | (k', v) :: d' => if String.eqb k k' then Some v else assoc k d'
  end.

(** [o.get(k, dflt)] *)
Definition py_get (o : json) (k : string) (dflt : json) : result json :=
  match o with
  | JDict d => Ok (match assoc k d with Some v => v | None => dflt end)
  | _ => Raise (no_attribute o "get")
  end.

(** [o[k]] for a string subscript [k] *)
Definition py_getitem (o : json) (k : string) : result json :=
  match o with
  | JDict d =>
      match assoc k d with
      | Some v => Ok v
      | None => Raise (Exn KeyError k)
      end
  | JList _ => Raise (Exn TypeError "list indices must be integers or slices, not str")
  | JStr _ => Raise (Exn TypeError "string indices must be integers, not 'str'")
  | _ => Raise (Exn TypeError ("'" +:+ type_name o +:+ "' object is not subscriptable"))
  end.

Definition SFis_zero (f : float) : bool :=
  match f with S754_zero _ => true | _ => false end.

(** Truth value testing, as used by [not journal_id_url], [elif doi_raw]
    and [if not items]. *)
Definition truthy (v : json) : bool :=
  match v with
  | JNull => false
  | JBool b => b
  | JInt z => negb (z =? 0)%Z
  | JFloat f => negb (SFis_zero f)
  | JStr s => negb (String.eqb s "")
  | JList l => match l with [] => false | _ => true end
  | JDict d => match d with [] => false | _ => true end
  end.

Definition slash : ascii := "/"%char.

Fixpoint contains_char (c : ascii) (s : string) : bool :=
  match s with
  | EmptyString => false
  | String c' r => if Ascii.eqb c c' then true else contains_char c r
  end.

(** The text after the last ["/"] of [s], or [s] itself when it has none:
    [s.rsplit("/", 1)[-1]] and [os.path.basename(s)]. *)
Fixpoint last_segment (s : string) : string :=
  match s with
  | EmptyString => EmptyString
  | String c r =>
      if Ascii.eqb c slash then last_segment r
      else if contains_char slash r then last_segment r
      else s
  end.

(** [v.rsplit("/", 1)[-1]]: only [str] has the method. *)
Definition py_rsplit_last (v : json) : result string :=
  match v with
  | JStr s => Ok (last_segment s)
  | _ => Raise (no_attribute v "rsplit")
  end.

Fixpoint replace_char (c : ascii) (by_ : string) (s : string) : string :=
  match s with
  | EmptyString => EmptyString
  | String c' r =>
      if Ascii.eqb c c' then by_ +:+ replace_char c by_ r
      else String c' (replace_char c by_ r)
  end.

(** [raw_title.replace("<", "&lt;").replace(">", "&gt;")] *)
Definition py_escape_title (v : json) : result string :=
  match v with
  | JStr s => Ok (replace_char ">"%char "&gt;" (replace_char "<"%char "&lt;" s))
  | _ => Raise (no_attribute v "replace")
  end.

Fixpoint starts_with (p s : string) : bool :=
  match p, s with
  | EmptyString, _ => true
  | String a p', String b s' => Ascii.eqb a b && starts_with p' s'
  | String _ _, EmptyString => false
  end.

Fixpoint join (sep : string) (l : list string) : string :=
  match l with
  | [] => ""
  | [s] => s
  | s :: rest => s +:+ sep +:+ join sep rest
  end.

Definition as_str (v : json) : result string :=
  match v with
  | JStr s => Ok s
  | _ => Raise (Exn TypeError ("sequence item: expected str instance, "
                               +:+ type_name v +:+ " found"))
  end.

(** [sep.join(items)] for a list of values: every item must be a [str]. *)
Definition py_join (sep : string) (items : list json) : result string :=
  rbind (rmap_list as_str items) (fun l => Ok (join sep l)).

(** ** Numbers *)

(** [float(z)] for an [int]: rounding to nearest even in binary64. *)
Definition float_of_Z (z : Z) : float := binary_normalize 53 1024 z 0 false.

(** Exact comparison of a float with an integer, as Python compares a
    [float] with an [int]; [None] when the float is a NaN. *)
Definition SFcompare_Z (f : float) (z : Z) : option comparison :=
  match f with
  | S754_nan => None
  | S754_zero _ => Some (0 ?= z)%Z
  | S754_infinity s => Some (if s then Lt else Gt)
  | S754_finite s m e =>
      let sm := if s then Z.neg m else Z.pos m in
      Some (if (0 <=? e)%Z then (sm * 2 ^ e ?= z)%Z
            else (sm ?= z * 2 ^ (- e))%Z)
  end.

Definition bool_of_ge (c : option comparison) : bool :=
  match c with Some Gt | Some Eq => true | _ => false end.
Definition bool_of_lt (c : option comparison) : bool :=
  match c with Some Lt => true | _ => false end.

(** [bool] is a subclass of [int]. *)
Definition num_view (v : json) : option (Z + float) :=
  match v with
  | JBool b => Some (inl (Z.b2z b))
  | JInt z => Some (inl z)
  | JFloat f => Some (inr f)
  | _ => None
  end.

Definition num_compare (a b : Z + float) : option comparison :=
  match a, b with
  | inl x, inl y => Some (x ?= y)%Z
  | inr f, inr g => SFcompare f g
  | inr f, inl y => SFcompare_Z f y
  | inl x, inr g => option_map CompOpp (SFcompare_Z g x)
  end.

(** [score >= threshold], where [score] is a float (line 129). *)
Definition py_float_ge (score : float) (threshold : json) : result bool :=
  match num_view threshold with
  | Some t => Ok (bool_of_ge (num_compare (inr score) t))
  | None =>
      Raise (Exn TypeError
               ("'>=' not supported between instances of 'float' and '"
                +:+ type_name threshold +:+ "'"))
  end.

(** ** Text *)

Definition is_continuation (c : ascii) : bool :=
  let n := nat_of_ascii c in (128 <=? n)%nat && (n <? 192)%nat.

Definition continues (s : string) : bool :=
  match s with String c _ => is_continuation c | EmptyString => false end.

(** The characters of a string: each lead byte with the continuation
    bytes that follow it. *)
Fixpoint utf8_chars (s : string) : list string :=
  match s with
  | EmptyString => []
  | String c r =>
      if continues r then
        match utf8_chars r with
        | g :: gs => String c g :: gs
        | [] => [String c EmptyString]
        end
      else String c EmptyString :: utf8_chars r
  end.

(** [for x in v] and [len(v)] *)
Definition py_iter (v : json) : result (list json) :=
  match v with
  | JList l => Ok l
  | JDict d => Ok (map (fun kv => JStr (fst kv)) d)
  | JStr s => Ok (map JStr (utf8_chars s))
  | _ => Raise (Exn TypeError ("'" +:+ type_name v +:+ "' object is not iterable"))
  end.

(** [posixpath.join(a, b)] for a non-empty [a] without trailing slash *)
Definition os_path_join (a b : string) : string :=
  if starts_with "/" b then b else a +:+ "/" +:+ b.

Definition zpad (width : nat) (z : Z) : string :=
  let s := pretty z in
  String.concat "" (replicate (width - String.length s) "0") +:+ s.

(** ** Dates: [datetime] and [email.utils.format_datetime] *)

(** A [datetime] reduced to the fields [format_datetime] prints; [tzinfo]
    is the UTC offset in minutes, [None] for a naive value. *)
Record datetime : Type := {
  year : Z; month : Z; day : Z;
  hour : Z; minute : Z; second : Z;
  tzinfo : option Z
}.

Definition timezone_utc : Z := 0.

(** [dt.replace(tzinfo=tz)]: the fields are kept and the zone is set. *)
Definition replace_tzinfo (dt : datetime) (tz : Z) : datetime :=
  {| year := year dt; month := month dt; day := day dt;
     hour := hour dt; minute := minute dt; second := second dt;
     tzinfo := Some tz |}.

Definition is_leap (y : Z) : bool :=
  ((y mod 4 =? 0) && (negb (y mod 100 =? 0) || (y mod 400 =? 0)))%Z.

Definition days_before_year (y : Z) : Z :=
  let p := (y - 1)%Z in (p * 365 + p / 4 - p / 100 + p / 400)%Z.

Definition days_in_month (y m : Z) : Z :=
  if (m =? 2)%Z then (if is_leap y then 29 else 28)%Z
  else if ((m =? 4) || (m =? 6) || (m =? 9) || (m =? 11))%Z then 30%Z
  else 31%Z.

Definition days_before_month (y m : Z) : Z :=
  fold_right Z.add 0%Z
    (map (fun k => days_in_month y (Z.of_nat k)) (seq 1 (Z.to_nat m - 1))).

(** [dt.weekday()]: Monday is 0. *)
Definition weekday (dt : datetime) : Z :=
  ((days_before_year (year dt) + days_before_month (year dt) (month dt)
    + day dt + 6) mod 7)%Z.

Definition day_names : list string :=
  ["Mon"; "Tue"; "Wed"; "Thu"; "Fri"; "Sat"; "Sun"].
Definition month_names : list string :=
  ["Jan"; "Feb"; "Mar"; "Apr"; "May"; "Jun";
   "Jul"; "Aug"; "Sep"; "Oct"; "Nov"; "Dec"].

(** [dt.strftime("%z")] for an aware value, ["-0000"] for a naive one. *)
Definition zone_text (tz : option Z) : string :=
  match tz with
  | None => "-0000"
  | Some off =>
      (if (off <? 0)%Z then "-" else "+")
      +:+ zpad 2 (Z.abs off / 60) +:+ zpad 2 (Z.abs off mod 60)
  end.

(** [email.utils.format_datetime(dt)]: the RFC 2822 rendering
    ["%s, %02d %s %04d %02d:%02d:%02d %s"]. *)
Definition format_datetime (dt : datetime) : string :=
  nth (Z.to_nat (weekday dt)) day_names "" +:+ ", "
  +:+ zpad 2 (day dt) +:+ " "
  +:+ nth (Z.to_nat (month dt - 1)) month_names "" +:+ " "
  +:+ zpad 4 (year dt) +:+ " "
  +:+ zpad 2 (hour dt) +:+ ":" +:+ zpad 2 (minute dt) +:+ ":"
  +:+ zpad 2 (second dt) +:+ " " +:+ zone_text (tzinfo dt).

(** ** Feeds *)

(** One [<item>] as built on a feedgen entry; [entry_pubDate] is [None]
    until [entry.pubDate] is called. *)
Record entry : Type := {
  entry_id : string;
  entry_title : string;
  entry_link : string;
  entry_description : string;
  entry_pubDate : option string
}.

(** The state of a [FeedGenerator] when it is serialised; [fg_entries]
    lists the entries in the order in which the document lists its
    [<item>] elements. *)
Record feed : Type := {
  fg_title : json;
  fg_links : list (string * string);
  fg_description : string;
  fg_language : string;
  fg_entries : list entry
}.

(** [fg.add_entry()] (line 77): feedgen's [add_entry] has the default
    [order='prepend'], so the new entry is inserted before the entries
    added earlier. *)
Definition add_entry (e : entry) (entries : list entry) : list entry :=
  e :: entries.

(** ** The outside world *)

Record request : Type := { req_url : string; req_params : list (string * json) }.

(** What [requests.get] returns: [response.url], the outcome of
    [response.raise_for_status()] and the outcome of [response.json()]. *)
Record response : Type := {
  resp_url : string;
  resp_status : result unit;
  resp_json : result json
}.

(** Everything the script takes from its environment and its libraries.
    [requests_get] receives the requests issued before the current one, so
    that the same request may be answered differently each time;
    [open_read] opens a file and reads its text; [rss_write] is the outcome
    of serialising a feed and writing it ([fg.rss_file]); [float_of_str]
    is [float] on a [str]; [repr] is the text Python prints for a float or
    a container; [list_lt] is [<] between two lists; [fromisoformat] is
    [datetime.fromisoformat] on a [str]. *)
Record World : Type := {
  requests_get : list request -> request -> result response;
  open_read : string -> result string;
  os_makedirs : string -> result unit;
  rss_write : feed -> string -> result unit;
  yaml_safe_load : string -> result json;
  float_of_str : string -> result float;
  repr : json -> string;
  list_lt : list json -> list json -> result bool;
  fromisoformat : string -> result datetime
}.

(** ** State *)

(** One constructor per [print] statement of the script, carrying the
    values its text interpolates. *)
Inductive line : Type :=
| QueryURL (url : string)
| ErrorFetchingImpact (e : exn)
| NoItems (feed_title : json)
| SkippingPubDate (title : string) (pub_date : json) (e : exn)
| TrackingAuthors
| TrackedAuthor (name id : json)
| UnknownQueryType (query_type : json)
| Returned (feed_name : json) (n_works n_filtered : nat)
| GeneratedFeed (output_path : string).

Record state : Type := {
  journal_cache : gmap string float;
  requests_made : list request;
  stdout : list line;
  files : list (string * feed)
}.

Definition initial_state : state :=
  {| journal_cache := ∅; requests_made := []; stdout := []; files := [] |}.

Definition log_line (l : line) (st : state) : state :=
  {| journal_cache := journal_cache st; requests_made := requests_made st;
     stdout := stdout st ++ [l]; files := files st |}.

Definition log_request (rq : request) (st : state) : state :=
  {| journal_cache := journal_cache st;
     requests_made := requests_made st ++ [rq];
     stdout := stdout st; files := files st |}.

Definition store_impact (k : string) (v : float) (st : state) : state :=
  {| journal_cache := <[k := v]> (journal_cache st);
     requests_made := requests_made st;
     stdout := stdout st; files := files st |}.

Definition log_file (path : string) (fg : feed) (st : state) : state :=
  {| journal_cache := journal_cache st; requests_made := requests_made st;
     stdout := stdout st; files := files st ++ [(path, fg)] |}.

(** Computations that read and update the state and may raise. *)
Definition M (A : Type) : Type := state -> result A * state.

Definition ret {A} (a : A) : M A := fun st => (Ok a, st).

Definition bind {A B} (m : M A) (k : A -> M B) : M B :=
  fun st =>
    match m st with
    | (Ok a, st') => k a st'
    | (Raise e, st') => (Raise e, st')
    end.

Definition lift {A} (r : result A) : M A := fun st => (r, st).

(** [try: body except Exception as e: handler(e)] *)
Definition try_except {A} (body : M A) (handler : exn -> M A) : M A :=
  fun st =>
    match body st with
    | (Ok a, st') => (Ok a, st')
    | (Raise e, st') => handler e st'
    end.

Declare Scope py_scope.
Delimit Scope py_scope with py.
Notation "'let*' x ':=' m 'in' k" := (bind m (fun x => k))
  (at level 10, x name, m at level 100, k at level 200) : py_scope.
Notation "'do' m 'then' k" := (bind m (fun _ => k))
  (at level 10, m at level 100, k at level 200) : py_scope.
Local Open Scope py_scope.

Definition print (l : line) : M unit := fun st => (Ok tt, log_line l st).

Definition cache_store (k : string) (v : float) : M unit :=
  fun st => (Ok tt, store_impact k v st).

Definition cache_lookup (k : string) : M (option float) :=
  fun st => (Ok (journal_cache st !! k), st).

Fixpoint mapM {A B} (f : A -> M B) (l : list A) : M (list B) :=
  match l with
  | [] => ret []
  | x :: xs => let* y := f x in let* ys := mapM f xs in ret (y :: ys)
  end.

(** [d[k] = v] on a dict literal *)
Fixpoint dict_set (k : string) (v : json) (d : list (string * json))
  : list (string * json) :=
  match d with
  | [] => [(k, v)]
  | (k', v') :: d' =>
      if String.eqb k k' then (k, v) :: d' else (k', v') :: dict_set k v d'
  end.

Section Program.

Context (W : World).

(** [requests.get(url, params=params)]: the request is issued, then the
    world answers or raises. *)
Definition http_get (url : string) (params : list (string * json)) : M response :=
  fun st =>
    let rq := {| req_url := url; req_params := params |} in
    (requests_get W (requests_made st) rq, log_request rq st).

(** [fg.rss_file(output_file)] *)
Definition rss_file (fg : feed) (output_file : string) : M unit :=
  fun st =>
    match rss_write W fg output_file with
    | Ok _ => (Ok tt, log_file output_file fg st)
    | Raise e => (Raise e, st)
    end.

(** [float(v)] *)
Definition py_float (v : json) : result float :=
  match v with
  | JFloat f => Ok f
  | JInt z =>
      match float_of_Z z with
      | S754_infinity _ =>
          Raise (Exn OverflowError "int too large to convert to float")
      | f => Ok f
      end
  | JBool b => Ok (float_of_Z (Z.b2z b))
  | JStr s => float_of_str W s
  | _ =>
      Raise (Exn TypeError
               ("float() argument must be a string or a real number, not '"
                +:+ type_name v +:+ "'"))
  end.

(** [str(v)], as interpolated by an f-string. *)
Definition py_str (v : json) : string :=
  match v with
  | JStr s => s
  | JNull => "None"
  | JBool b => if b then "True" else "False"
  | JInt z => pretty z
  | _ => repr W v
  end.

(** [a < b], the only comparison [list.sort] performs. *)
Definition py_lt (a b : json) : result bool :=
  match num_view a, num_view b with
  | Some x, Some y => Ok (bool_of_lt (num_compare x y))
  | _, _ =>
      match a, b with
      | JStr s, JStr t => Ok (String.ltb s t)
      | JList l, JList m => list_lt W l m
      | _, _ =>
          Raise (Exn TypeError
                   ("'<' not supported between instances of '"
                    +:+ type_name a +:+ "' and '" +:+ type_name b +:+ "'"))
      end
  end.

(** *** [load_settings] (lines 11-13) *)

Definition load_settings (path : string) : result json :=
  rbind (open_read W path) (yaml_safe_load W).

(** *** [fetch_openalex_works] (lines 16-23) *)

Definition works_url : string := "https://api.openalex.org/works".

Definition fetch_openalex_works
    (params : list (string * json)) (email : json) (max_results : Z) : M json :=
  let params := dict_set "mailto" email
                  (dict_set "per_page" (JInt max_results) params) in
  let* response := http_get works_url params in
  do print (QueryURL (resp_url response)) then
  do lift (resp_status response) then
  let* data := lift (resp_json response) in
  lift (py_getitem data "results").

(** *** [get_journal_impact_score] (lines 26-48) *)

Definition sources_url (journal_id : string) : string :=
  "https://api.openalex.org/sources/" +:+ journal_id.

(** The [try] block, lines 30-45. *)
Definition impact_score_body (work email : json) : M float :=
  let* primary_location := lift (py_get work "primary_location" (JDict [])) in
  let* source := lift (py_get primary_location "source" (JDict [])) in
  let* journal_id_url := lift (py_get source "id" JNull) in
  if negb (truthy journal_id_url) then ret zero
  else
    let* journal_id := lift (py_rsplit_last journal_id_url) in
    let* cached := cache_lookup journal_id in
    match cached with
    | Some impact => ret impact
    | None =>
        let* response := http_get (sources_url journal_id) [("mailto", email)] in
        do lift (resp_status response) then
        let* data := lift (resp_json response) in
        let* summary_stats := lift (py_get data "summary_stats" (JDict [])) in
        let* citedness := lift (py_get summary_stats "2yr_mean_citedness" (JFloat zero)) in
        let* impact := lift (py_float citedness) in
        do cache_store journal_id impact then
        ret impact
    end.

Definition get_journal_impact_score (work email : json) : M float :=
  try_except (impact_score_body work email)
             (fun e => do print (ErrorFetchingImpact e) then ret zero).

(** Successive calls of the scorer, one per work. *)
Definition score_all (works : list json) (email : json) : M (list float) :=
  mapM (fun w => get_journal_impact_score w email) works.

(** *** [generate_rss_feed] (lines 51-87) *)

(** Line 69: the comma-joined display names of the authorships. *)
Definition author_names (work : json) : result string :=
  rbind (py_get work "authorships" (JList [])) (fun authorships =>
  rbind (py_iter authorships) (fun items =>
  rbind (rmap_list
           (fun a => rbind (py_getitem a "author")
                           (fun author => py_getitem author "display_name"))
           items) (fun names =>
  py_join ", " names))).

(** Lines 70-75. *)
Definition link_of (doi_raw : json) : result string :=
  match doi_raw with
  | JStr doi =>
      Ok (if starts_with "http" doi then doi
          else if truthy doi_raw then "https://doi.org/" +:+ doi
          else "https://openalex.org")
  | _ => Raise (no_attribute doi_raw "startswith")
  end.

Definition py_fromisoformat (v : json) : result datetime :=
  match v with
  | JStr s => fromisoformat W s
  | _ => Raise (Exn TypeError "fromisoformat: argument must be str")
  end.

(** Lines 83-84: the text handed to [entry.pubDate]. *)
Definition pubdate_text (pub_date : json) : result string :=
  rbind (py_fromisoformat pub_date) (fun dt =>
  Ok (format_datetime (replace_tzinfo dt timezone_utc))).

Definition set_pubDate (e : entry) (d : string) : entry :=
  {| entry_id := entry_id e; entry_title := entry_title e;
     entry_link := entry_link e; entry_description := entry_description e;
     entry_pubDate := Some d |}.

(** Lines 63-81: the entry as it stands when the [try] block is entered,
    together with the raw publication date. *)
Definition entry_fields (work : json) : result (entry * json) :=
  rbind (py_get work "title" (JStr "No title")) (fun raw_title =>
  rbind (py_escape_title raw_title) (fun title =>
  rbind (py_get work "doi" (JStr "")) (fun doi_raw =>
  rbind (py_get work "abstract" (JStr "No abstract available")) (fun abstract =>
  rbind (py_get work "publication_date" (JStr "2024-01-01")) (fun pub_date =>
  rbind (author_names work) (fun authors =>
  rbind (link_of doi_raw) (fun link_url =>
  Ok ({| entry_id := link_url;
         entry_title := title;
         entry_link := link_url;
         entry_description :=
           "<b>Authors:</b> " +:+ authors
           +:+ "<br/><br/><b>Abstract:</b><br/>" +:+ py_str abstract;
         entry_pubDate := None |}, pub_date)))))))).

(** The body of the loop over [items], lines 63-86. *)
Definition feed_item (work : json) : M entry :=
  let* fields := lift (entry_fields work) in
  let '(e, pub_date) := fields in
  try_except
    (let* d := lift (pubdate_text pub_date) in ret (set_pubDate e d))
    (fun err =>
       do print (SkippingPubDate (entry_title e) pub_date err) then ret e).

(** Lines 52-57 and the entries of the loop, given in the order in which
    the loop adds them: the feed object handed to [rss_file].  Each
    [add_entry] call puts its entry before the earlier ones. *)
Definition feed_of (feed_title : json) (output_file : string)
    (entries : list entry) : feed :=
  {| fg_title := feed_title;
     fg_links :=
       [("https://openalex.org", "alternate");
        ("https://openalex.org/feeds/" +:+ last_segment output_file, "self")];
     fg_description :=
       "Literature feed generated from OpenAlex for: " +:+ py_str feed_title;
     fg_language := "en";
     fg_entries := fold_left (fun fg e => add_entry e fg) entries [] |}.

Definition generate_rss_feed
    (feed_title : json) (items : list json) (output_file : string) : M unit :=
  do (if negb (truthy (JList items)) then print (NoItems feed_title)
      else ret tt) then
  let* entries := mapM feed_item items in
  rss_file (feed_of feed_title output_file entries) output_file.

(** *** [main] (lines 90-136) *)

Definition settings_path : string := "settings/openalex_settings.yaml".
Definition feeds_dir : string := "feeds".

Definition py_eq_str (v : json) (s : string) : bool :=
  match v with JStr t => String.eqb t s | _ => false end.

(** [d.items()] *)
Definition py_items (v : json) : result (list (string * json)) :=
  match v with
  | JDict d => Ok d
  | _ => Raise (no_attribute v "items")
  end.

Definition keyword_params (search_str : json) : list (string * json) :=
  [("search", search_str);
   ("filter", JStr "from_publication_date:2023-01-01");
   ("sort", JStr "publication_date:desc")].

Definition authors_params (author_filter : string) : list (string * json) :=
  [("filter",
    JStr ("from_publication_date:2023-01-01,author.id:" +:+ author_filter));
   ("sort", JStr "publication_date:desc")].

(** Lines 104-127: the works of the query, or [None] when the loop
    executes [continue]. *)
Definition query_works (query query_type email : json) : M (option json) :=
  if py_eq_str query_type "keyword" then
    let* search_str := lift (py_getitem query "search") in
    let* works := fetch_openalex_works (keyword_params search_str) email 50 in
    ret (Some works)
  else if py_eq_str query_type "authors" then
    let* authors := lift (py_getitem query "authors") in
    let* items := lift (py_iter authors) in
    let* author_ids := lift (rmap_list (fun a => py_getitem a "id") items) in
    do print TrackingAuthors then
    let* authors' := lift (py_getitem query "authors") in
    let* items' := lift (py_iter authors') in
    do mapM (fun a =>
               let* name := lift (py_getitem a "name") in
               let* id := lift (py_getitem a "id") in
               print (TrackedAuthor name id)) items' then
    let* author_filter := lift (py_join "|" author_ids) in
    let* works := fetch_openalex_works (authors_params author_filter) email 50 in
    ret (Some works)
  else
    do print (UnknownQueryType query_type) then ret None.

(** Line 129: the list comprehension, one scorer call per work, in order. *)
Fixpoint filter_by_impact (works : list json) (email impact_threshold : json)
  : M (list json) :=
  match works with
  | [] => ret []
  | w :: ws =>
      let* score := get_journal_impact_score w email in
      let* keep := lift (py_float_ge score impact_threshold) in
      let* rest := filter_by_impact ws email impact_threshold in
      ret (if keep : bool then w :: rest else rest)
  end.

(** Lines 131-133.  [list.sort] computes the key of every element, then
    sorts with [<] alone; with [reverse=True] it reverses the list, sorts
    it stably in ascending order and reverses the outcome.  A stable sort
    has one possible outcome, so insertion stands for CPython's merge
    sort. *)
Definition sort_key (w : json) : result json :=
  py_get w "publication_date" (JStr "1900-01-01").

Fixpoint insert_asc (x : json * json) (l : list (json * json))
  : result (list (json * json)) :=
  match l with
  | [] => Ok [x]
  | y :: l' =>
      rbind (py_lt (fst y) (fst x)) (fun lt =>
      if lt : bool then rbind (insert_asc x l') (fun r => Ok (y :: r))
      else Ok (x :: y :: l'))
  end.

Fixpoint sort_asc (l : list (json * json)) : result (list (json * json)) :=
  match l with
  | [] => Ok []
  | x :: xs => rbind (sort_asc xs) (insert_asc x)
  end.

Definition sort_by_date (works : list json) : result (list json) :=
  rbind (rmap_list (fun w => rbind (sort_key w) (fun k => Ok (k, w))) works)
        (fun keyed =>
  rbind (sort_asc (rev keyed)) (fun sorted =>
  Ok (map snd (rev sorted)))).

(** Lines 129-136, for the works a query returned. *)
Definition filter_sort_render
    (feed_name : json) (output_path : string) (works email impact_threshold : json)
  : M unit :=
  let* fetched := lift (py_iter works) in
  let* filtered := filter_by_impact fetched email impact_threshold in
  let* filtered_works := lift (sort_by_date filtered) in
  do print (Returned feed_name (length fetched) (length filtered_works)) then
  do generate_rss_feed feed_name filtered_works output_path then
  print (GeneratedFeed output_path).

(** One iteration of the loop over [config["queries"].items()]. *)
Definition main_query (email impact_threshold query : json) : M unit :=
  let* query_type := lift (py_get query "type" (JStr "keyword")) in
  let* feed_name := lift (py_getitem query "feed_name") in
  let output_path := os_path_join feeds_dir (py_str feed_name +:+ ".xml") in
  let* fetched := query_works query query_type email in
  match fetched with
  | None => ret tt
  | Some works =>
      filter_sort_render feed_name output_path works email impact_threshold
  end.

Fixpoint main_loop (email impact_threshold : json) (queries : list (string * json))
  : M unit :=
  match queries with
  | [] => ret tt
  | (_, query) :: rest =>
      do main_query email impact_threshold query then
      main_loop email impact_threshold rest
  end.

Definition main : M unit :=
  do lift (os_makedirs W feeds_dir) then
  let* config := lift (load_settings settings_path) in
  let* email := lift (py_getitem config "email") in
  let* impact_threshold := lift (py_get config "impact_threshold" (JFloat zero)) in
  let* queries := lift (py_getitem config "queries") in
  let* items := lift (py_items queries) in
  main_loop email impact_threshold items.

End Program.

(** ** A concrete world and concrete works *)

(** The date-only fragment [YYYY-MM-DD] of [datetime.fromisoformat]. *)
Definition digit (c : ascii) : option Z :=
  let n := nat_of_ascii c in
  if (48 <=? n)%nat && (n <=? 57)%nat then Some (Z.of_nat (n - 48)) else None.

Fixpoint digits (s : string) (acc : Z) : option Z :=
  match s with
  | EmptyString => Some acc
  | String c r =>
      match digit c with
      | Some d => digits r (acc * 10 + d)%Z
      | None => None
      end
  end.

Definition fromisoformat_date (s : string) : result datetime :=
  let bad := Raise (Exn ValueError ("Invalid isoformat string: '" +:+ s +:+ "'")) in
  if negb (String.length s =? 10)%nat then bad
  else if negb (String.eqb (substring 4 1 s) "-" && String.eqb (substring 7 1 s) "-")
  then bad
  else
    match digits (substring 0 4 s) 0, digits (substring 5 2 s) 0,
          digits (substring 8 2 s) 0 with
    | Some y, Some m, Some d =>
        if ((1 <=? y) && (1 <=? m) && (m <=? 12) && (1 <=? d)
            && (d <=? days_in_month y m))%Z
        then Ok {| year := y; month := m; day := d;
                   hour := 0; minute := 0; second := 0; tzinfo := None |}
        else bad
    | _, _, _ => bad
    end.

Definition float_2_5 : float := Eval vm_compute in binary_normalize 53 1024 5 (-1) false.

Definition located_at (url : json) : (string * json) :=
  ("primary_location", JDict [("source", JDict [("id", url)])]).

Definition work_march : json :=
  JDict [("title", JStr "A <B> C"); ("doi", JStr "10.1/xyz");
         ("publication_date", JStr "2024-03-01");
         located_at (JStr "https://openalex.org/S1")].

Definition work_may : json :=
  JDict [("title", JStr "May"); ("doi", JStr "https://doi.org/10.1/may");
         ("publication_date", JStr "2023-05-10");
         located_at (JStr "https://openalex.org/S1")].

Definition work_undated : json :=
  JDict [("title", JStr "Undated"); located_at (JStr "https://openalex.org/S2")].

Definition work_bad_date : json :=
  JDict [("title", JStr "Bad date"); ("publication_date", JStr "March 2024")].

Definition work_no_location : json :=
  JDict [("title", JStr "Nowhere"); ("primary_location", JNull)].

Definition sources_body (citedness : json) : json :=
  JDict [("id", JStr "S"); ("summary_stats", JDict [("2yr_mean_citedness", citedness)])].

Definition answer (url : string) (body : json) : result response :=
  Ok {| resp_url := url; resp_status := Ok tt; resp_json := Ok body |}.

Definition example_config : json :=
  JDict [("email", JStr "me@example.org");
         ("impact_threshold", JFloat float_2_5);
         ("queries",
          JDict [("first", JDict [("type", JStr "foo"); ("feed_name", JStr "skipped")]);
                 ("second", JDict [("feed_name", JStr "polymers");
                                   ("search", JStr "polymer brushes")])])].

(** A world in which journal [S1] has citedness 2.5, journal [S2] has
    citedness 1, every other source lookup is answered 404, and the works
    endpoint returns the three dated and undated works above. *)
Definition example_world : World :=
  {| requests_get := fun _ rq =>
       if String.eqb (req_url rq) works_url then
         answer works_url (JDict [("results", JList [work_may; work_march; work_undated])])
       else if String.eqb (req_url rq) (sources_url "S1") then
         answer (req_url rq) (sources_body (JFloat float_2_5))
       else if String.eqb (req_url rq) (sources_url "S2") then
         answer (req_url rq) (sources_body (JInt 1))
       else
         Ok {| resp_url := req_url rq;
               resp_status := Raise (Exn RequestException "404 Client Error");
               resp_json := Ok JNull |};
     open_read := fun path =>
       if String.eqb path settings_path then Ok "email: me@example.org"
       else Raise (Exn OSError "No such file or directory");
     os_makedirs := fun _ => Ok tt;
     rss_write := fun _ _ => Ok tt;
     yaml_safe_load := fun text =>
       if String.eqb text "email: me@example.org" then Ok example_config
       else Raise (Exn YAMLError "could not parse");
     float_of_str := fun s =>
       Raise (Exn ValueError ("could not convert string to float: '" +:+ s +:+ "'"));
     repr := fun v => "<" +:+ type_name v +:+ ">";
     list_lt := fun _ _ => Ok false;
     fromisoformat := fromisoformat_date |}.

(** The same world with the network down and no settings file. *)
Definition offline_world : World :=
  {| requests_get := fun _ _ => Raise (Exn RequestException "Connection refused");
     open_read := fun _ => Raise (Exn OSError "No such file or directory");
     os_makedirs := os_makedirs example_world;
     rss_write := rss_write example_world;
     yaml_safe_load := yaml_safe_load example_world;
     float_of_str := float_of_str example_world;
     repr := repr example_world;
     list_lt := list_lt example_world;
     fromisoformat := fromisoformat_date |}.

(** A world whose settings file is empty: [yaml.safe_load] returns [None]
    for a text without a document. *)
Definition blank_world : World :=
  {| requests_get := requests_get example_world;
     open_read := fun path =>
       if String.eqb path settings_path then Ok ""
       else Raise (Exn OSError "No such file or directory");
     os_makedirs := os_makedirs example_world;
     rss_write := rss_write example_world;
     yaml_safe_load := fun text =>
       if String.eqb text "" then Ok JNull
       else yaml_safe_load example_world text;
     float_of_str := float_of_str example_world;
     repr := repr example_world;
     list_lt := list_lt example_world;
     fromisoformat := fromisoformat_date |}.

(** * Notions used in the statements *)

(** Line 30 on its own: the value of [primary_location.source.id], or the
    exception the chain of [.get] calls raises. *)
Definition source_id_url (work : json) : result json :=
  rbind (py_get work "primary_location" (JDict [])) (fun primary_location =>
  rbind (py_get primary_location "source" (JDict [])) (fun source =>
  py_get source "id" JNull)).

(** The journal id a work resolves to: the last path segment of a
    non-empty source id. *)
Definition journal_id_of (work : json) : option string :=
  match source_id_url work with
  | Ok (JStr s) => if String.eqb s "" then None else Some (last_segment s)
  | _ => None
  end.

(** Plain traversal of nested mappings: [None] as soon as a key is
    missing or the value reached is not a mapping. *)
Definition field (k : string) (v : option json) : option json :=
  match v with
  | Some (JDict d) => assoc k d
  | _ => None
  end.

Definition source_id (work : json) : option json :=
  field "id" (field "source" (field "primary_location" (Some work))).

(** [primary_location.source.id] is absent: a key is missing on the way,
    or the value is falsy. *)
Definition source_id_absent (work : json) : Prop :=
  match source_id work with
  | None => True
  | Some v => truthy v = false
  end.

(** A work as the data model has it for sorting: a mapping whose
    [publication_date], when present, is a string. *)
Definition dated (work : json) : Prop :=
  match work with
  | JDict d =>
      match assoc "publication_date" d with
      | None | Some (JStr _) => True
      | Some _ => False
      end
  | _ => False
  end.

(** The date a work is sorted by: its [publication_date], or
    ["1900-01-01"] when it has none. *)
Definition effective_date (work : json) : string :=
  match field "publication_date" (Some work) with
  | Some (JStr s) => s
  | _ => "1900-01-01"
  end.

(** [a] may stand before [b] in a feed sorted by date, newest first. *)
Definition not_older (a b : json) : Prop :=
  String.leb (effective_date b) (effective_date a) = true.

(** Insertion sort on string keys, ascending and stable. *)
Fixpoint insert_str (x : string * json) (l : list (string * json))
  : list (string * json) :=
  match l with
  | [] => [x]
  | y :: l' =>
      if String.ltb (fst y) (fst x) then y :: insert_str x l'
      else x :: y :: l'
  end.

Fixpoint isort_str (l : list (string * json)) : list (string * json) :=
  match l with
  | [] => []
  | x :: xs => insert_str x (isort_str xs)
  end.

Definition key_le (x y : string * json) : Prop :=
  String.leb (fst x) (fst y) = true.

Definition tag (x : string * json) : json * json := (JStr (fst x), snd x).

Definition with_date (w : json) : string * json := (effective_date w, w).

(** The order between a float and an integer in exact arithmetic: a
    finite float is its signed mantissa times a power of two, a zero is 0,
    an infinity is beyond every integer and a NaN is unordered. *)
Definition signed (sign : bool) (m : positive) : Z :=
  if sign then Z.neg m else Z.pos m.

Definition int_le_float (z : Z) (score : float) : bool :=
  match score with
  | S754_nan => false
  | S754_zero _ => (z <=? 0)%Z
  | S754_infinity sign => negb sign
  | S754_finite sign m e =>
      if (0 <=? e)%Z then (z <=? signed sign m * 2 ^ e)%Z
      else (z * 2 ^ (- e) <=? signed sign m)%Z
  end.

Definition float_lt_int (score : float) (z : Z) : bool :=
  match score with
  | S754_nan => false
  | S754_zero _ => (0 <? z)%Z
  | S754_infinity sign => sign
  | S754_finite sign m e =>
      if (0 <=? e)%Z then (signed sign m * 2 ^ e <? z)%Z
      else (signed sign m <? z * 2 ^ (- e))%Z
  end.

Definition float_eq_int (score : float) (z : Z) : bool :=
  match score with
  | S754_nan | S754_infinity _ => false
  | S754_zero _ => (z =? 0)%Z
  | S754_finite sign m e =>
      if (0 <=? e)%Z then (signed sign m * 2 ^ e =? z)%Z
      else (signed sign m =? z * 2 ^ (- e))%Z
  end.

(** [threshold <= score], [score < threshold] and [score == threshold]
    for the thresholds a configuration can hold, read off the order of
    the floats of the Standard Library and the order of the integers;
    [True] and [False] count as 1 and 0. *)
Definition meets_threshold (score : float) (threshold : json) : bool :=
  match threshold with
  | JFloat f => SFleb f score
  | JInt z => int_le_float z score
  | JBool b => int_le_float (Z.b2z b) score
  | _ => false
  end.

Definition below_threshold (score : float) (threshold : json) : bool :=
  match threshold with
  | JFloat f => SFltb score f
  | JInt z => float_lt_int score z
  | JBool b => float_lt_int score (Z.b2z b)
  | _ => false
  end.

Definition equals_threshold (score : float) (threshold : json) : bool :=
  match threshold with
  | JFloat f => SFeqb score f
  | JInt z => float_eq_int score z
  | JBool b => float_eq_int score (Z.b2z b)
  | _ => false
  end.




(** [score >= threshold] for a numeric threshold. *)
Definition at_least (threshold : Z + float) (score : float) : bool :=
  bool_of_ge (num_compare (inr score) threshold).


Definition by_date (works : list json) : list (string * json) :=
  rev (isort_str (rev (map with_date works))).

Definition sources_request (journal_id : string) (email : json) : request :=
  {| req_url := sources_url journal_id; req_params := [("mailto", email)] |}.

(** A computation that leaves every memoised entry in place. *)
Definition extends_cache {A} (m : M A) : Prop :=
  forall st r st', m st = (r, st') -> journal_cache st ⊆ journal_cache st'.

Section Notions.

Context (W : World).

(** Lines 38-42 as a function of the requests issued before: the impact
    the sources endpoint yields for a journal id, or the exception raised
    on the way. *)
Definition source_impact (history : list request) (journal_id : string)
    (email : json) : result float :=
  rbind (requests_get W history (sources_request journal_id email)) (fun response =>
  rbind (resp_status response) (fun _ =>
  rbind (resp_json response) (fun data =>
  rbind (py_get data "summary_stats" (JDict [])) (fun summary_stats =>
  rbind (py_get summary_stats "2yr_mean_citedness" (JFloat zero)) (fun c =>
  py_float W c))))).

(** The entry an item yields, the printing left out: the fields of lines
    63-81, with the publication date when lines 83-84 produce one. *)
Definition item_entry (work : json) : result entry :=
  rbind (entry_fields W work) (fun f =>
  Ok (match pubdate_text W (snd f) with
      | Ok d => set_pubDate (fst f) d
      | Raise _ => fst f
      end)).

End Notions.

(** * Notions used in the further properties *)

(** The request [fetch_openalex_works] issues (lines 17-20). *)
Definition works_request
    (params : list (string * json)) (email : json) (max_results : Z) : request :=
  {| req_url := works_url;
     req_params :=
       dict_set "mailto" email (dict_set "per_page" (JInt max_results) params) |}.

Definition is_dict (v : json) : bool :=
  match v with JDict _ => true | _ => false end.

(** A world like [example_world] whose works endpoint finds nothing. *)
Definition barren_world : World :=
  {| requests_get := fun _ rq =>
       answer (req_url rq) (JDict [("results", JList [])]);
     open_read := open_read example_world;
     os_makedirs := os_makedirs example_world;
     rss_write := rss_write example_world;
     yaml_safe_load := yaml_safe_load example_world;
     float_of_str := float_of_str example_world;
     repr := repr example_world;
     list_lt := list_lt example_world;
     fromisoformat := fromisoformat_date |}.

(** The journal ids a run of the scorer over [works] looks up when every
    lookup succeeds, [seen] being the ids memoised beforehand: each id not
    seen before, at its first occurrence. *)
Fixpoint fresh_ids (seen : gset string) (works : list json) : list string :=
  match works with
  | [] => []
  | w :: ws =>
      match journal_id_of w with
      | Some j =>
          if decide (j ∈ seen) then fresh_ids seen ws
          else j :: fresh_ids ({[j]} ∪ seen) ws
      | None => fresh_ids seen ws
      end
  end.

(** The journal ids of the works that resolve to one, in order. *)
Fixpoint journal_ids (works : list json) : list string :=
  match works with
  | [] => []
  | w :: ws =>
      match journal_id_of w with
      | Some j => j :: journal_ids ws
      | None => journal_ids ws
      end
  end.

(** A work whose [publication_date] is missing, a string or null. *)
Definition dated_or_null (work : json) : Prop :=
  match work with
  | JDict d =>
      match assoc "publication_date" d with
      | None | Some (JStr _) | Some JNull => True
      | Some _ => False
      end
  | _ => False
  end.

Definition null_dated (work : json) : Prop :=
  field "publication_date" (Some work) = Some JNull.

Definition str_keyed (x : json * json) : Prop := exists s, fst x = JStr s.
Definition null_keyed (x : json * json) : Prop := fst x = JNull.

Definition work_null_date : json :=
  JDict [("title", JStr "Null date"); ("doi", JStr "10.1/null");
         ("publication_date", JNull)].

Definition work_null_doi : json :=
  JDict [("title", JStr "Null doi"); ("doi", JNull);
         ("publication_date", JStr "2024-02-02")].

(** The id and the name of a tracked author whose id is a string. *)
Definition author_id_name (a : json) : option (string * json) :=
  match a with
  | JDict d =>
      match assoc "id" d, assoc "name" d with
      | Some (JStr i), Some n => Some (i, n)
      | _, _ => None
      end
  | _ => None
  end.

Definition log_lines (ls : list line) (st : state) : state :=
  fold_left (fun s l => log_line l s) ls st.

(** The path of the feed of a query named [feed_name] (line 102). *)
Definition output_path_of (W : World) (feed_name : json) : string :=
  os_path_join feeds_dir (py_str W feed_name +:+ ".xml").

(** A computation that only appends files, at most [n] of them. *)
Definition appends_files {A} (n : nat) (m : M A) : Prop :=
  forall st r st',
    m st = (r, st') ->
    exists new, files st' = (files st ++ new)%list /\ (length new <= n)%nat.

Definition authors_query : json :=
  JDict [("type", JStr "authors"); ("feed_name", JStr "group");
         ("authors",
          JList [JDict [("name", JStr "Ada"); ("id", JStr "A1")];
                 JDict [("name", JStr "Bo"); ("id", JStr "A2")]])].

Definition keyword_query : json :=
  JDict [("feed_name", JStr "polymers"); ("search", JStr "polymer brushes")].

(** The display name of an authorship whose author has one, a string. *)
Definition display_name (a : json) : option string :=
  match a with
  | JDict d =>
      match assoc "author" d with
      | Some (JDict author) =>
          match assoc "display_name" author with
          | Some (JStr n) => Some n
          | _ => None
          end
      | _ => None
      end
  | _ => None
  end.

Definition work_two_authors : json :=
  JDict [("title", JStr "Joint work"); ("doi", JStr "10.1/joint");
         ("abstract", JStr "Short.");
         ("authorships",
          JList [JDict [("author", JDict [("display_name", JStr "Ada L.")])];
                 JDict [("author", JDict [("display_name", JStr "Bo K.")])]])].

(** * Properties *)

(** ** Strings *)

Lemma last_segment_no_slash s :
  contains_char slash s = false -> last_segment s = s.
Proof.
  destruct s as [|c r]; cbn [contains_char last_segment]; [done|].
  rewrite (Ascii.eqb_sym c slash).
  destruct (Ascii.eqb slash c); [done|]. by intros ->.
Qed.

Lemma append_cons c p s : String c p +:+ s = String c (p +:+ s).
Proof. reflexivity. Qed.

Lemma contains_char_app c p s :
  contains_char c (p +:+ String c s) = true.
Proof.
  induction p as [|c' p IH].
  - change (contains_char c (String c s) = true). simpl.
    by rewrite Ascii.eqb_refl.
  - rewrite append_cons. cbn [contains_char]. rewrite IH.
    by destruct (Ascii.eqb c c').
Qed.

(** [last_segment] is the text after the last slash. *)
Lemma last_segment_after_slash p s :
  contains_char slash s = false ->
  last_segment (p +:+ String slash s) = s.
Proof.
  intros Hs. induction p as [|c p IH].
  - change (last_segment (String slash s) = s). cbn [last_segment].
    rewrite Ascii.eqb_refl. by apply last_segment_no_slash.
  - rewrite append_cons. cbn [last_segment]. rewrite contains_char_app.
    by destruct (Ascii.eqb c slash).
Qed.

(** ** The impact scorer *)

Section Scorer.

Context (W : World).

Ltac unfold_M :=
  unfold get_journal_impact_score, impact_score_body, try_except, bind, lift,
    ret, print, cache_lookup, cache_store, http_get in *; simpl in *.

(** The try block when the source id cannot be read. *)
Lemma body_extraction_raises work email st e :
  source_id_url work = Raise e ->
  impact_score_body W work email st = (Raise e, st).
Proof.
  unfold source_id_url. intros H. unfold_M.
  destruct (py_get work "primary_location" (JDict [])) as [pl|]; simpl in *;
    [|congruence].
  destruct (py_get pl "source" (JDict [])) as [src|]; simpl in *; [|congruence].
  by rewrite H.
Qed.

(** The try block when the source id is present but falsy. *)
Lemma body_falsy work email st v :
  source_id_url work = Ok v -> truthy v = false ->
  impact_score_body W work email st = (Ok zero, st).
Proof.
  unfold source_id_url. intros H Hv. unfold_M.
  destruct (py_get work "primary_location" (JDict [])) as [pl|]; simpl in *;
    [|congruence].
  destruct (py_get pl "source" (JDict [])) as [src|]; simpl in *; [|congruence].
  by rewrite H, Hv.
Qed.

(** The try block when the source id is truthy but no string. *)
Lemma body_not_str work email st v :
  source_id_url work = Ok v -> truthy v = true ->
  (forall s, v <> JStr s) ->
  impact_score_body W work email st = (Raise (no_attribute v "rsplit"), st).
Proof.
  unfold source_id_url. intros H Hv Hs. unfold_M.
  destruct (py_get work "primary_location" (JDict [])) as [pl|]; simpl in *;
    [|congruence].
  destruct (py_get pl "source" (JDict [])) as [src|]; simpl in *; [|congruence].
  rewrite H, Hv. simpl.
  destruct v; simpl; try done. by destruct (Hs s).
Qed.

Lemma journal_id_of_Some work j :
  journal_id_of work = Some j ->
  exists s, source_id_url work = Ok (JStr s) /\ truthy (JStr s) = true
            /\ j = last_segment s.
Proof.
  unfold journal_id_of. destruct (source_id_url work) as [v|]; [|done].
  destruct v; try done. destruct (String.eqb s "") eqn:E; [done|].
  intros [= <-]. exists s. simpl. by rewrite E.
Qed.

(** The try block once the journal id is known. *)
Lemma body_resolved work email st j :
  journal_id_of work = Some j ->
  impact_score_body W work email st =
    match journal_cache st !! j with
    | Some impact => (Ok impact, st)
    | None =>
        let st1 := log_request (sources_request j email) st in
        match source_impact W (requests_made st) j email with
        | Ok impact => (Ok impact, store_impact j impact st1)
        | Raise e => (Raise e, st1)
        end
    end.
Proof.
  intros Hj. destruct (journal_id_of_Some _ _ Hj) as (s & Hs & Ht & ->).
  unfold source_id_url in Hs. unfold source_impact, sources_request. unfold_M.
  destruct (py_get work "primary_location" (JDict [])) as [pl|]; simpl in *;
    [|congruence].
  destruct (py_get pl "source" (JDict [])) as [src|]; simpl in *; [|congruence].
  rewrite Hs. simpl. rewrite Ht. simpl.
  destruct (journal_cache st !! last_segment s); [done|].
  destruct (requests_get W _ _) as [r|]; simpl; [|done].
  destruct (resp_status r); simpl; [|done].
  destruct (resp_json r) as [data|]; simpl; [|done].
  destruct (py_get data "summary_stats" (JDict [])) as [ss|]; simpl; [|done].
  destruct (py_get ss "2yr_mean_citedness" (JFloat zero)) as [c|]; simpl; [|done].
  by destruct (py_float W c).
Qed.

(** A work that resolves to no journal id never reaches the network. *)
Lemma body_unresolved work email st :
  journal_id_of work = None ->
  exists r, impact_score_body W work email st = (r, st)
            /\ (forall v, r = Ok v -> v = zero).
Proof.
  unfold journal_id_of. intros H.
  destruct (source_id_url work) as [v|e] eqn:Hs.
  - destruct (truthy v) eqn:Ht.
    + assert (forall s, v <> JStr s) as Hn.
      { intros s ->. simpl in Ht. by destruct (String.eqb s ""). }
      eexists. split; [by apply body_not_str|]. done.
    + eexists. split; [by eapply body_falsy|]. by intros ? [= <-].
  - eexists. split; [by apply body_extraction_raises|]. done.
Qed.

(** The whole call, for a work that resolves to journal id [j]. *)
Lemma scorer_resolved work email st j :
  journal_id_of work = Some j ->
  get_journal_impact_score W work email st =
    match journal_cache st !! j with
    | Some impact => (Ok impact, st)
    | None =>
        let st1 := log_request (sources_request j email) st in
        match source_impact W (requests_made st) j email with
        | Ok impact => (Ok impact, store_impact j impact st1)
        | Raise e => (Ok zero, log_line (ErrorFetchingImpact e) st1)
        end
    end.
Proof.
  intros Hj. unfold get_journal_impact_score, try_except.
  rewrite (body_resolved _ _ _ _ Hj).
  destruct (journal_cache st !! j); [done|]. simpl.
  by destruct (source_impact W (requests_made st) j email).
Qed.

(** The whole call, for a work that resolves to no journal id. *)
Lemma scorer_unresolved work email st :
  journal_id_of work = None ->
  exists st',
    get_journal_impact_score W work email st = (Ok zero, st')
    /\ requests_made st' = requests_made st
    /\ journal_cache st' = journal_cache st.
Proof.
  intros Hj. destruct (body_unresolved work email st Hj) as (r & Hr & Hz).
  unfold get_journal_impact_score, try_except. rewrite Hr.
  destruct r as [v|e]; [rewrite (Hz v eq_refl)|]; by eexists.
Qed.

(** The scorer always returns. *)
Lemma scorer_total work email st :
  exists score st', get_journal_impact_score W work email st = (Ok score, st').
Proof.
  unfold get_journal_impact_score, try_except.
  destruct (impact_score_body W work email st) as [[v|e] st1]; eauto.
Qed.

(** The scorer writes no file. *)
Lemma scorer_files work email st r st' :
  get_journal_impact_score W work email st = (r, st') -> files st' = files st.
Proof.
  destruct (journal_id_of work) as [j|] eqn:Hj.
  - rewrite (scorer_resolved _ _ _ _ Hj).
    destruct (journal_cache st !! j); [by intros [= _ <-]|]. simpl.
    by destruct (source_impact W (requests_made st) j email); intros [= _ <-].
  - destruct (body_unresolved work email st Hj) as (r0 & Hr & _).
    unfold get_journal_impact_score, try_except. rewrite Hr.
    by destruct r0; intros [= _ <-].
Qed.

Lemma score_all_files works email :
  forall st r st', score_all W works email st = (r, st') -> files st' = files st.
Proof.
  induction works as [|w ws IH]; intros st r st'; simpl.
  - by intros [= _ <-].
  - unfold score_all. simpl. unfold bind at 1.
    destruct (get_journal_impact_score W w email st) as [[v|e] st1] eqn:E.
    + unfold bind at 1. fold (score_all W ws email).
      destruct (score_all W ws email st1) as [[vs|e] st2] eqn:E2; simpl;
        intros [= _ <-];
        by rewrite (IH _ _ _ E2), (scorer_files _ _ _ _ _ E).
    + intros [= _ <-]. exact (scorer_files _ _ _ _ _ E).
Qed.

(** An entry of the cache is never removed nor overwritten. *)
Lemma scorer_cache_mono work email st r st' :
  get_journal_impact_score W work email st = (r, st') ->
  journal_cache st ⊆ journal_cache st'.
Proof.
  destruct (journal_id_of work) as [j|] eqn:Hj.
  - rewrite (scorer_resolved _ _ _ _ Hj).
    destruct (journal_cache st !! j) eqn:Hc; [by intros [= _ <-]|]. simpl.
    destruct (source_impact W (requests_made st) j email); intros [= _ <-];
      simpl; [by apply insert_subseteq|done].
  - destruct (scorer_unresolved work email st Hj) as (st1 & -> & _ & Hc).
    intros [= _ <-]. by rewrite Hc.
Qed.

(** A call for another journal leaves [j] uncached. *)
Lemma scorer_keeps_uncached work email st r st' j :
  journal_id_of work <> Some j ->
  journal_cache st !! j = None ->
  get_journal_impact_score W work email st = (r, st') ->
  journal_cache st' !! j = None.
Proof.
  intros Hne Hc. destruct (journal_id_of work) as [j'|] eqn:Hj.
  - rewrite (scorer_resolved _ _ _ _ Hj).
    destruct (journal_cache st !! j'); [by intros [= _ <-]|]. simpl.
    destruct (source_impact W (requests_made st) j' email); intros [= _ <-];
      simpl; [|done].
    rewrite lookup_insert_ne; [done|congruence].
  - destruct (scorer_unresolved work email st Hj) as (st1 & -> & _ & Hc').
    intros [= _ <-]. by rewrite Hc'.
Qed.

Lemma score_all_keeps_uncached works email j :
  Forall (fun w => journal_id_of w <> Some j) works ->
  forall st r st',
    journal_cache st !! j = None ->
    score_all W works email st = (r, st') ->
    journal_cache st' !! j = None.
Proof.
  induction 1 as [|w ws Hw _ IH]; intros st r st' Hc; simpl.
  - by intros [= _ <-].
  - unfold score_all. simpl. unfold bind at 1.
    destruct (get_journal_impact_score W w email st) as [[v|e] st1] eqn:E.
    + unfold bind at 1. fold (score_all W ws email).
      destruct (score_all W ws email st1) as [[vs|e] st2] eqn:E2; simpl;
        intros [= _ <-];
        exact (IH st1 _ _ (scorer_keeps_uncached _ _ _ _ _ _ Hw Hc E) E2).
    + intros [= _ <-]. exact (scorer_keeps_uncached _ _ _ _ _ _ Hw Hc E).
Qed.

Lemma score_all_cache_mono works email :
  forall st r st',
    score_all W works email st = (r, st') ->
    journal_cache st ⊆ journal_cache st'.
Proof.
  induction works as [|w ws IH]; intros st r st'; simpl.
  - by intros [= _ <-].
  - unfold score_all. simpl. unfold bind at 1.
    destruct (get_journal_impact_score W w email st) as [[v|e] st1] eqn:E.
    + unfold bind at 1. fold (score_all W ws email).
      destruct (score_all W ws email st1) as [[vs|e] st2] eqn:E2; simpl;
        intros [= _ <-];
        exact (transitivity (scorer_cache_mono _ _ _ _ _ E) (IH _ _ _ E2)).
    + intros [= _ <-]. exact (scorer_cache_mono _ _ _ _ _ E).
Qed.

End Scorer.

(** ** The cache only grows *)

Create HintDb cache.

Section CacheGrowth.

Context (W : World).

Lemma extends_ret {A} (a : A) : extends_cache (ret a).
Proof. by intros st r st' [= _ <-]. Qed.

Lemma extends_lift {A} (r : result A) : extends_cache (lift r).
Proof. by intros st r' st' [= _ <-]. Qed.

Lemma extends_print l : extends_cache (print l).
Proof. by intros st r st' [= _ <-]. Qed.

Lemma extends_http_get url params : extends_cache (http_get W url params).
Proof. by intros st r st' [= _ <-]. Qed.

Lemma extends_rss_file fg path : extends_cache (rss_file W fg path).
Proof.
  intros st r st'. unfold rss_file.
  by destruct (rss_write W fg path); intros [= _ <-].
Qed.

Lemma extends_bind {A B} (m : M A) (k : A -> M B) :
  extends_cache m -> (forall a, extends_cache (k a)) -> extends_cache (bind m k).
Proof.
  intros Hm Hk st r st'. unfold bind.
  destruct (m st) as [[a|e] st1] eqn:E.
  - intros H. exact (transitivity (Hm _ _ _ E) (Hk _ _ _ _ H)).
  - intros [= _ <-]. exact (Hm _ _ _ E).
Qed.

Lemma extends_try {A} (m : M A) (h : exn -> M A) :
  extends_cache m -> (forall e, extends_cache (h e)) ->
  extends_cache (try_except m h).
Proof.
  intros Hm Hh st r st'. unfold try_except.
  destruct (m st) as [[a|e] st1] eqn:E.
  - intros [= _ <-]. exact (Hm _ _ _ E).
  - intros H. exact (transitivity (Hm _ _ _ E) (Hh _ _ _ _ H)).
Qed.

Lemma extends_mapM {A B} (f : A -> M B) (l : list A) :
  (forall x, extends_cache (f x)) -> extends_cache (mapM f l).
Proof.
  intros Hf. induction l as [|x l IH]; simpl; [apply extends_ret|].
  apply extends_bind; [done|]. intros y.
  apply extends_bind; [done|]. intros ys. apply extends_ret.
Qed.

Lemma extends_scorer work email :
  extends_cache (get_journal_impact_score W work email).
Proof. intros st r st'. apply scorer_cache_mono. Qed.

Hint Resolve extends_ret extends_lift extends_print extends_http_get
  extends_rss_file extends_scorer : cache.

Ltac extends :=
  repeat first
    [ progress eauto with cache
    | apply extends_bind; [|intros ?]
    | apply extends_try; [|intros ?]
    | apply extends_mapM; intros ?
    | match goal with
      | |- extends_cache (if ?b then _ else _) => destruct b
      | |- extends_cache (match ?x with _ => _ end) => destruct x
      end ].

Lemma extends_fetch params email n :
  extends_cache (fetch_openalex_works W params email n).
Proof. unfold fetch_openalex_works. extends. Qed.

Lemma extends_filter works email T :
  extends_cache (filter_by_impact W works email T).
Proof. induction works; simpl; extends. Qed.

Lemma extends_generate feed_title items output_file :
  extends_cache (generate_rss_feed W feed_title items output_file).
Proof. unfold generate_rss_feed, feed_item. extends. Qed.

Hint Resolve extends_fetch extends_filter extends_generate : cache.

Lemma extends_main_query email T query :
  extends_cache (main_query W email T query).
Proof. unfold main_query, query_works, filter_sort_render. extends. Qed.

(** Over a whole run of the loop, every memoised entry stays in place. *)
Lemma extends_main_loop email T queries :
  extends_cache (main_loop W email T queries).
Proof.
  induction queries as [|[key query] rest IH]; simpl; [apply extends_ret|].
  apply extends_bind; [apply extends_main_query|done].
Qed.

End CacheGrowth.

Section ScorerClaims.

Context (W : World).

(** C1. Whatever the work, the email, the state and the world,
    [get_journal_impact_score] returns a float and raises nothing.  When
    the try block raises [e] (at the extraction of the journal id, at the
    request, at the status check, at the decoding of the body or at the
    conversion to float), the call prints the diagnostic for [e], leaves
    the cache as it was and returns exactly [0.0]. *)
Theorem get_journal_impact_score_never_raises (work email : json) (st : state) :
  (exists score st', get_journal_impact_score W work email st = (Ok score, st'))
  /\ (forall e st1,
        impact_score_body W work email st = (Raise e, st1) ->
        get_journal_impact_score W work email st
          = (Ok zero, log_line (ErrorFetchingImpact e) st1)
        /\ journal_cache st1 = journal_cache st)
  /\ (forall e,
        source_id_url work = Raise e ->
        get_journal_impact_score W work email st
          = (Ok zero, log_line (ErrorFetchingImpact e) st))
  /\ (forall j e,
        journal_id_of work = Some j ->
        journal_cache st !! j = None ->
        source_impact W (requests_made st) j email = Raise e ->
        get_journal_impact_score W work email st
          = (Ok zero, log_line (ErrorFetchingImpact e)
                        (log_request (sources_request j email) st))).
Proof.
  repeat split.
  - unfold get_journal_impact_score, try_except.
    destruct (impact_score_body W work email st) as [[v|e] st1]; eauto.
  - unfold get_journal_impact_score, try_except. by rewrite H.
  - destruct (journal_id_of work) as [j|] eqn:Hj.
    + rewrite (body_resolved W _ _ _ _ Hj) in H.
      destruct (journal_cache st !! j); [done|].
      destruct (source_impact W (requests_made st) j email); [done|].
      by injection H as _ <-.
    + destruct (body_unresolved W work email st Hj) as (r & Hr & _).
      rewrite Hr in H. by injection H as _ <-.
  - intros e He. unfold get_journal_impact_score, try_except.
    by rewrite (body_extraction_raises W _ _ _ _ He).
  - intros j e Hj Hc He. unfold get_journal_impact_score, try_except.
    rewrite (body_resolved W _ _ _ _ Hj), Hc. simpl. by rewrite He.
Qed.

(** C5. A work whose [primary_location.source.id] is absent (a key is
    missing on the way, or the value is falsy) scores exactly [0.0]; the
    call issues no request and leaves the cache alone. *)
Theorem absent_source_id_scores_zero (work email : json) (st : state) :
  source_id_absent work ->
  exists st',
    get_journal_impact_score W work email st = (Ok zero, st')
    /\ requests_made st' = requests_made st
    /\ journal_cache st' = journal_cache st.
Proof.
  intros Habs.
  assert (journal_id_of work = None) as Hj.
  { unfold source_id_absent, source_id, field in Habs.
    unfold journal_id_of, source_id_url, py_get.
    destruct work; simpl; try done.
    destruct (assoc "primary_location" d) as [pl|]; simpl; [|done].
    destruct pl; simpl; try done.
    destruct (assoc "source" d0) as [src|]; simpl; [|done].
    destruct src; simpl; try done.
    destruct (assoc "id" d1) as [v|]; simpl; [|done].
    destruct v; try done. simpl in Habs.
    by destruct (String.eqb s ""). }
  destruct (body_unresolved W work email st Hj) as (r & Hr & Hz).
  unfold get_journal_impact_score, try_except. rewrite Hr.
  destruct r as [v|e].
  - rewrite (Hz v eq_refl). by exists st.
  - by eexists.
Qed.

End ScorerClaims.

(** A work whose [primary_location] is null: the diagnostic is printed
    and the score is [0.0]. *)
Lemma never_raises_witness :
  get_journal_impact_score example_world work_no_location (JStr "me@example.org")
      initial_state
  = (Ok zero,
     log_line (ErrorFetchingImpact (no_attribute JNull "get")) initial_state).
Proof.
  apply (get_journal_impact_score_never_raises example_world work_no_location
           (JStr "me@example.org") initial_state).
  reflexivity.
Defined.

Lemma absent_source_id_witness :
  exists st',
    get_journal_impact_score example_world work_bad_date JNull initial_state
      = (Ok zero, st')
    /\ requests_made st' = requests_made initial_state
    /\ journal_cache st' = journal_cache initial_state.
Proof.
  apply (absent_source_id_scores_zero example_world work_bad_date JNull
           initial_state).
  exact I.
Defined.

Section CacheClaims.

Context (W : World).

(** C2, as amended.  When the first call for a journal id did not fail
    (its try block returned: the id was already memoised, or the lookup
    succeeded), the id is memoised with the value that call returned, and a
    later call for a work resolving to the same id, in any state whose
    cache still extends that one (such as the state any run of the loop
    over the queries ends in), returns this value and changes nothing: no
    request is issued. *)
Theorem memoized_journal_is_not_requested_again
    (w1 w2 email1 email2 : json) (j : string) (v : float) (st0 st1 st2 : state) :
  journal_id_of w1 = Some j ->
  journal_id_of w2 = Some j ->
  impact_score_body W w1 email1 st0 = (Ok v, st1) ->
  journal_cache st1 ⊆ journal_cache st2 ->
  get_journal_impact_score W w1 email1 st0 = (Ok v, st1)
  /\ journal_cache st1 !! j = Some v
  /\ get_journal_impact_score W w2 email2 st2 = (Ok v, st2)
  /\ (forall email T queries r st3,
        main_loop W email T queries st1 = (r, st3) ->
        get_journal_impact_score W w2 email2 st3 = (Ok v, st3)).
Proof.
  intros H1 H2 Hbody Hsub.
  cut (get_journal_impact_score W w1 email1 st0 = (Ok v, st1)
       /\ journal_cache st1 !! j = Some v
       /\ get_journal_impact_score W w2 email2 st2 = (Ok v, st2)).
  { intros (Ha & Hb & Hc). split; [done|]. split; [done|]. split; [done|].
    intros email T queries r st3 Hrun.
    rewrite (scorer_resolved W _ _ _ _ H2).
    by rewrite (lookup_weaken _ _ _ _ Hb (extends_main_loop W _ _ _ _ _ _ Hrun)). }
  assert (journal_cache st1 !! j = Some v) as Hc.
  { rewrite (body_resolved W _ _ _ _ H1) in Hbody.
    destruct (journal_cache st0 !! j) eqn:E.
    - by injection Hbody as <- <-.
    - simpl in Hbody.
      destruct (source_impact W (requests_made st0) j email1); [|done].
      injection Hbody as <- <-. simpl. apply lookup_insert_eq. }
  split; [|split; [done|]].
  - unfold get_journal_impact_score, try_except. by rewrite Hbody.
  - rewrite (scorer_resolved W _ _ _ _ H2).
    by rewrite (lookup_weaken _ _ _ _ Hc Hsub).
Qed.

(** C9. The cache changes only by the insertion of the impact a
    successful lookup returned.  When the lookup for an uncached journal id
    [j] raises, the call returns [0.0], the cache is unchanged and holds no
    entry for [j]; after any further calls for works of other journals, the
    next call for [j] issues the request for [j] again. *)
Theorem failed_lookup_is_not_cached (work email : json) (st : state) :
  (forall score st',
      get_journal_impact_score W work email st = (Ok score, st') ->
      journal_cache st' = journal_cache st
      \/ exists j,
           journal_id_of work = Some j
           /\ journal_cache st !! j = None
           /\ source_impact W (requests_made st) j email = Ok score
           /\ journal_cache st' = <[j := score]> (journal_cache st))
  /\ (forall j e,
        journal_id_of work = Some j ->
        journal_cache st !! j = None ->
        source_impact W (requests_made st) j email = Raise e ->
        exists st',
          get_journal_impact_score W work email st = (Ok zero, st')
          /\ journal_cache st' = journal_cache st
          /\ journal_cache st' !! j = None
          /\ forall between scores st2 work2 email2,
               Forall (fun w => journal_id_of w <> Some j) between ->
               score_all W between email st' = (Ok scores, st2) ->
               journal_id_of work2 = Some j ->
               exists score2 st3,
                 get_journal_impact_score W work2 email2 st2 = (Ok score2, st3)
                 /\ requests_made st3
                    = (requests_made st2 ++ [sources_request j email2])%list).
Proof.
  split.
  - intros score st'. destruct (journal_id_of work) as [j|] eqn:Hj.
    + rewrite (scorer_resolved W _ _ _ _ Hj).
      destruct (journal_cache st !! j) eqn:Hc; [intros [= _ <-]; by left|].
      simpl. destruct (source_impact W (requests_made st) j email) eqn:Hs.
      * intros [= <- <-]. right. by exists j.
      * intros [= _ <-]. by left.
    + destruct (scorer_unresolved W work email st Hj) as (st1 & -> & _ & Hc).
      intros [= _ <-]. by left.
  - intros j e Hj Hc Hs. rewrite (scorer_resolved W _ _ _ _ Hj), Hc. simpl.
    rewrite Hs. eexists. split; [done|]. simpl. split; [done|]. split; [done|].
    intros between scores st2 work2 email2 Hb Hrun Hj2.
    assert (journal_cache st2 !! j = None) as Hc2.
    { eapply (score_all_keeps_uncached W between email j Hb); [|exact Hrun].
      done. }
    rewrite (scorer_resolved W _ _ _ _ Hj2), Hc2. simpl.
    destruct (source_impact W (requests_made st2) j email2); by eexists _, _.
Qed.

End CacheClaims.

(** Two works of journal [S1]: the second call answers from the cache. *)
Lemma memoized_journal_witness :
  let email := JStr "me@example.org" in
  let st1 := store_impact "S1" float_2_5
               (log_request (sources_request "S1" email) initial_state) in
  get_journal_impact_score example_world work_may email initial_state
    = (Ok float_2_5, st1)
  /\ journal_cache st1 !! "S1" = Some float_2_5
  /\ get_journal_impact_score example_world work_march email st1
     = (Ok float_2_5, st1)
  /\ (forall email' T queries r st3,
        main_loop example_world email' T queries st1 = (r, st3) ->
        get_journal_impact_score example_world work_march email st3
        = (Ok float_2_5, st3)).
Proof.
  intros email st1.
  apply (memoized_journal_is_not_requested_again example_world
           work_may work_march email email "S1" float_2_5 initial_state st1 st1).
  - reflexivity.
  - reflexivity.
  - reflexivity.
  - reflexivity.
Defined.

(** C2 as stated fails: with the network down, the first call for journal
    [S1] memoises nothing, and the second call for the same journal issues
    a request again. *)
Lemma second_call_after_failure_requests_again :
  let email := JStr "me@example.org" in
  let st1 := snd (get_journal_impact_score offline_world work_may email
                    initial_state) in
  let st2 := snd (get_journal_impact_score offline_world work_march email st1) in
  journal_id_of work_may = Some "S1"
  /\ journal_id_of work_march = Some "S1"
  /\ journal_cache st1 !! "S1" = None
  /\ requests_made st2 = (requests_made st1 ++ [sources_request "S1" email])%list
  /\ requests_made st2 <> requests_made st1.
Proof. vm_compute. repeat split; congruence. Qed.

(** With the network down, a failed lookup for [S1] is followed by a call
    for [S2] and then by a second lookup for [S1]. *)
Lemma failed_lookup_witness :
  let email := JStr "me@example.org" in
  exists st',
    get_journal_impact_score offline_world work_may email initial_state
      = (Ok zero, st')
    /\ journal_cache st' = journal_cache initial_state
    /\ journal_cache st' !! "S1" = None
    /\ exists score2 st3,
         get_journal_impact_score offline_world work_march email
           (snd (score_all offline_world [work_undated] email st'))
         = (Ok score2, st3)
         /\ requests_made st3
            = (requests_made (snd (score_all offline_world [work_undated] email st'))
               ++ [sources_request "S1" email])%list.
Proof.
  intros email.
  destruct (proj2 (failed_lookup_is_not_cached offline_world work_may email
                     initial_state)
              "S1" (Exn RequestException "Connection refused")
              eq_refl eq_refl eq_refl)
    as (st' & Hcall & Hcache & Hnone & Hlater).
  exists st'. repeat split; try assumption.
  injection Hcall as <-.
  apply (Hlater [work_undated] [zero] _ work_march email).
  - repeat constructor; vm_compute; congruence.
  - reflexivity.
  - reflexivity.
Defined.

(** ** Sorting *)

Section StringOrder.

Lemma ltb_compare a b : String.ltb a b = true <-> String.compare a b = Lt.
Proof. unfold String.ltb. by destruct (String.compare a b). Qed.

Lemma leb_ltb a b : String.leb a b = negb (String.ltb b a).
Proof.
  unfold String.leb, String.ltb. rewrite (String.compare_antisym b a).
  by destruct (String.compare a b).
Qed.

Lemma ltb_trans a b c :
  String.ltb a b = true -> String.ltb b c = true -> String.ltb a c = true.
Proof.
  rewrite !ltb_compare.
  change String.compare with OrderedTypeEx.String_as_OT.cmp.
  rewrite !OrderedTypeEx.String_as_OT.cmp_lt.
  apply OrderedTypeEx.String_as_OT.lt_trans.
Qed.

Lemma ltb_irrefl a : String.ltb a a = false.
Proof.
  unfold String.ltb. pose proof (String.compare_antisym a a) as H.
  by destruct (String.compare a a).
Qed.

Lemma leb_trans a b c :
  String.leb a b = true -> String.leb b c = true -> String.leb a c = true.
Proof.
  rewrite !leb_ltb, !negb_true_iff. intros Hba Hcb.
  destruct (String.ltb c a) eqn:Hca; [|done].
  destruct (String.compare a b) eqn:Hab.
  - apply String.compare_eq_iff in Hab. subst. congruence.
  - apply ltb_compare in Hab. pose proof (ltb_trans _ _ _ Hca Hab). congruence.
  - rewrite String.compare_antisym in Hab.
    assert (String.ltb b a = true); [|congruence].
    apply ltb_compare. by destruct (String.compare b a).
Qed.

End StringOrder.

Section InsertionSort.

Lemma insert_str_perm x l : Permutation (insert_str x l) (x :: l).
Proof.
  induction l as [|y l IH]; simpl; [done|].
  destruct (String.ltb (fst y) (fst x)); [|done].
  rewrite IH. apply perm_swap.
Qed.

Lemma isort_str_perm l : Permutation (isort_str l) l.
Proof.
  induction l as [|x l IH]; simpl; [done|].
  by rewrite insert_str_perm, IH.
Qed.

Lemma insert_str_sorted x l :
  StronglySorted key_le l -> StronglySorted key_le (insert_str x l).
Proof.
  induction 1 as [|y l Hl IH Hy]; simpl.
  - repeat constructor.
  - destruct (String.ltb (fst y) (fst x)) eqn:E.
    + constructor; [done|].
      rewrite insert_str_perm. constructor; [|done].
      unfold key_le. rewrite leb_ltb.
      destruct (String.ltb (fst x) (fst y)) eqn:E'; [|done].
      pose proof (ltb_trans _ _ _ E E') as F. by rewrite ltb_irrefl in F.
    + assert (key_le x y) as Hxy by (unfold key_le; by rewrite leb_ltb, E).
      constructor; [by constructor|].
      constructor; [done|].
      eapply Forall_impl; [exact Hy|]. intros z Hz. unfold key_le in *.
      by eapply leb_trans.
Qed.

Lemma isort_str_sorted l : StronglySorted key_le (isort_str l).
Proof.
  induction l; simpl; [constructor|by apply insert_str_sorted].
Qed.

(** Stability: the elements of any one key keep their order. *)
Lemma insert_str_stable k x l :
  List.filter (fun y => String.eqb (fst y) k) (insert_str x l)
  = List.filter (fun y => String.eqb (fst y) k) (x :: l).
Proof.
  induction l as [|y l IH]; [done|]. simpl in *.
  destruct (String.ltb (fst y) (fst x)) eqn:E; [|done]. simpl. rewrite IH.
  destruct (String.eqb (fst x) k) eqn:Ex; [|done].
  destruct (String.eqb (fst y) k) eqn:Ey; [|done].
  apply String.eqb_eq in Ex, Ey. rewrite Ex, Ey in E.
  by rewrite ltb_irrefl in E.
Qed.

Lemma isort_str_stable k l :
  List.filter (fun y => String.eqb (fst y) k) (isort_str l)
  = List.filter (fun y => String.eqb (fst y) k) l.
Proof.
  induction l as [|x l IH]; [done|]. simpl isort_str.
  rewrite insert_str_stable. simpl. by rewrite IH.
Qed.

Lemma StronglySorted_rev {A} (R : relation A) l :
  StronglySorted R l -> StronglySorted (flip R) (rev l).
Proof.
  induction 1 as [|x l Hl IH Hx]; simpl; [constructor|].
  apply StronglySorted_app_2; [|done|repeat constructor].
  intros a b Ha Hb. apply list_elem_of_singleton in Hb as ->.
  rewrite Forall_forall in Hx. apply Hx.
  apply list_elem_of_In, in_rev. by apply list_elem_of_In.
Qed.

End InsertionSort.

Section SortByDate.

Context (W : World).

Lemma rbind_Ok {A B} (r : result A) (k : A -> result B) b :
  rbind r k = Ok b -> exists a, r = Ok a /\ k a = Ok b.
Proof. destruct r; simpl; [eauto|done]. Qed.

(** Whatever the keys are, a sort that succeeds permutes its input. *)
Lemma insert_asc_perm x l r :
  insert_asc W x l = Ok r -> Permutation r (x :: l).
Proof.
  revert r. induction l as [|y l IH]; simpl; intros r.
  - by intros [= <-].
  - intros H. apply rbind_Ok in H as ([] & _ & H).
    + apply rbind_Ok in H as (r' & Hr' & [= <-]).
      rewrite (IH _ Hr'). apply perm_swap.
    + by injection H as <-.
Qed.

Lemma sort_asc_perm l r : sort_asc W l = Ok r -> Permutation r l.
Proof.
  revert r. induction l as [|x l IH]; simpl; intros r.
  - by intros [= <-].
  - intros H. apply rbind_Ok in H as (r' & Hr' & H).
    rewrite (insert_asc_perm _ _ _ H). by rewrite (IH _ Hr').
Qed.

Lemma keyed_snd works keyed :
  rmap_list (fun w => rbind (sort_key w) (fun k => Ok (k, w))) works = Ok keyed ->
  map snd keyed = works.
Proof.
  revert keyed. induction works as [|w ws IH]; simpl; intros keyed.
  - by intros [= <-].
  - intros H. apply rbind_Ok in H as (kw & Hkw & H).
    apply rbind_Ok in H as (rest & Hrest & [= <-]).
    apply rbind_Ok in Hkw as (k & _ & [= <-]). simpl. by rewrite (IH _ Hrest).
Qed.

Lemma sort_by_date_perm works sorted :
  sort_by_date W works = Ok sorted -> Permutation sorted works.
Proof.
  unfold sort_by_date. intros H.
  apply rbind_Ok in H as (keyed & Hk & H).
  apply rbind_Ok in H as (r & Hr & [= <-]).
  rewrite <- (keyed_snd _ _ Hk). apply Permutation_map.
  rewrite <- Permutation_rev, (sort_asc_perm _ _ Hr).
  by rewrite <- Permutation_rev.
Qed.

(** On string keys the sort is the insertion sort [isort_str]. *)
Lemma insert_asc_tag x l :
  insert_asc W (tag x) (map tag l) = Ok (map tag (insert_str x l)).
Proof.
  induction l as [|y l IH]; [done|]. simpl.
  destruct (String.ltb (fst y) (fst x)); simpl; [|done]. by rewrite IH.
Qed.

Lemma sort_asc_tag l : sort_asc W (map tag l) = Ok (map tag (isort_str l)).
Proof.
  induction l as [|x l IH]; [done|]. simpl. rewrite IH. simpl.
  apply insert_asc_tag.
Qed.

Lemma sort_key_dated w : dated w -> sort_key w = Ok (JStr (effective_date w)).
Proof.
  unfold dated, sort_key, effective_date, field, py_get.
  destruct w; try done. destruct (assoc "publication_date" d) as [v|]; [|done].
  by destruct v.
Qed.

Lemma keyed_dated works :
  Forall dated works ->
  rmap_list (fun w => rbind (sort_key w) (fun k => Ok (k, w))) works
  = Ok (map tag (map with_date works)).
Proof.
  induction 1 as [|w ws Hw _ IH]; [done|]. simpl.
  rewrite (sort_key_dated _ Hw). simpl. by rewrite IH.
Qed.

Lemma sort_by_date_dated works :
  Forall dated works -> sort_by_date W works = Ok (map snd (by_date works)).
Proof.
  intros H. unfold sort_by_date, by_date. rewrite (keyed_dated _ H). simpl.
  rewrite <- map_rev, sort_asc_tag. simpl. f_equal.
  rewrite <- map_rev, map_map. done.
Qed.

Lemma by_date_keys works :
  Forall (fun x => x = with_date (snd x)) (by_date works).
Proof.
  unfold by_date. apply Forall_forall. intros x Hx.
  apply list_elem_of_In, in_rev in Hx.
  apply (Permutation_in _ (isort_str_perm _)) in Hx.
  apply in_rev, in_map_iff in Hx as (w & <- & _). done.
Qed.

Lemma by_date_sorted works :
  StronglySorted not_older (map snd (by_date works)).
Proof.
  pose proof (by_date_keys works) as Hk.
  assert (StronglySorted (flip key_le) (by_date works)) as Hs
    by apply StronglySorted_rev, isort_str_sorted.
  induction Hs as [|x l Hl IH Hx]; simpl; [constructor|].
  apply Forall_cons in Hk as [Hkx Hkl]. constructor; [by apply IH|].
  rewrite Forall_forall in Hx, Hkl. apply Forall_forall. intros w Hw.
  apply list_elem_of_In, in_map_iff in Hw as (y & <- & Hy).
  apply list_elem_of_In in Hy. specialize (Hx y Hy). specialize (Hkl y Hy).
  unfold flip, key_le in Hx. unfold not_older.
  by rewrite Hkx, Hkl in Hx.
Qed.

Lemma by_date_stable works d :
  List.filter (fun w => String.eqb (effective_date w) d) (map snd (by_date works))
  = List.filter (fun w => String.eqb (effective_date w) d) works.
Proof.
  assert (forall l : list (string * json),
             Forall (fun x => x = with_date (snd x)) l ->
             List.filter (fun w => String.eqb (effective_date w) d) (map snd l)
             = map snd (List.filter (fun y => String.eqb (fst y) d) l)) as Hf.
  { induction 1 as [|x l Hx _ IH]; [done|]. simpl. rewrite IH.
    rewrite Hx at 3. simpl. by destruct (String.eqb (effective_date (snd x)) d). }
  rewrite (Hf _ (by_date_keys works)). unfold by_date.
  rewrite filter_rev, isort_str_stable, filter_rev, rev_involutive.
  rewrite <- Hf; [by rewrite map_map, map_id|].
  apply Forall_forall. intros x Hx.
  apply list_elem_of_In, in_map_iff in Hx as (w & <- & _). done.
Qed.

End SortByDate.

(** ** Rendering *)

Section Rendering.

Context (W : World).

Lemma feed_item_spec work st :
  feed_item W work st =
    match entry_fields W work with
    | Raise e => (Raise e, st)
    | Ok (e, pub_date) =>
        match pubdate_text W pub_date with
        | Ok d => (Ok (set_pubDate e d), st)
        | Raise err =>
            (Ok e, log_line (SkippingPubDate (entry_title e) pub_date err) st)
        end
    end.
Proof.
  unfold feed_item, bind, lift, try_except, ret, print.
  destruct (entry_fields W work) as [[e pub_date]|]; [|done].
  by destruct (pubdate_text W pub_date).
Qed.

(** Only [stdout] moves while the items are rendered, and the entries
    are those of [item_entry], item by item. *)
Lemma mapM_feed_item items st :
  exists st',
    mapM (feed_item W) items st = (rmap_list (item_entry W) items, st')
    /\ files st' = files st
    /\ journal_cache st' = journal_cache st
    /\ requests_made st' = requests_made st.
Proof.
  revert st. induction items as [|w ws IH]; intros st; simpl.
  - by exists st.
  - unfold bind at 1. rewrite feed_item_spec. unfold item_entry at 1.
    destruct (entry_fields W w) as [[e pub_date]|err]; simpl; [|by exists st].
    destruct (pubdate_text W pub_date) as [d|err]; simpl.
    + destruct (IH st) as (st' & Hm & ?). unfold bind. rewrite Hm.
      exists st'. split; [|done]. by destruct (rmap_list (item_entry W) ws).
    + destruct (IH (log_line (SkippingPubDate (entry_title e) pub_date err) st))
        as (st' & Hm & ?). unfold bind. rewrite Hm.
      exists st'. split; [|done]. by destruct (rmap_list (item_entry W) ws).
Qed.

Lemma generate_rss_feed_spec feed_title items output_file st :
  exists st1,
    files st1 = files st
    /\ journal_cache st1 = journal_cache st
    /\ requests_made st1 = requests_made st
    /\ generate_rss_feed W feed_title items output_file st =
         match rmap_list (item_entry W) items with
         | Raise e => (Raise e, st1)
         | Ok entries =>
             match rss_write W (feed_of W feed_title output_file entries)
                     output_file with
             | Ok _ =>
                 (Ok tt, log_file output_file
                           (feed_of W feed_title output_file entries) st1)
             | Raise e => (Raise e, st1)
             end
         end.
Proof.
  unfold generate_rss_feed. unfold bind at 1.
  set (st0 := if negb (truthy (JList items))
              then log_line (NoItems feed_title) st else st).
  assert ((if negb (truthy (JList items)) then print (NoItems feed_title)
           else ret tt) st = (Ok tt, st0)) as ->.
  { unfold st0. by destruct (negb (truthy (JList items))). }
  destruct (mapM_feed_item items st0) as (st1 & Hm & Hf & Hc & Hr).
  exists st1. unfold bind. rewrite Hm.
  assert (files st0 = files st /\ journal_cache st0 = journal_cache st
          /\ requests_made st0 = requests_made st) as (? & ? & ?).
  { unfold st0. by destruct (negb (truthy (JList items))). }
  split; [congruence|]. split; [congruence|]. split; [congruence|].
  destruct (rmap_list (item_entry W) items); [|done].
  unfold rss_file. by destruct (rss_write W _ output_file).
Qed.

Lemma rmap_list_length {A B} (f : A -> result B) l r :
  rmap_list f l = Ok r -> length r = length l.
Proof.
  revert r. induction l as [|x l IH]; simpl; intros r.
  - by intros [= <-].
  - destruct (f x); simpl; [|done].
    destruct (rmap_list f l) eqn:E; simpl; [|done].
    intros [= <-]. simpl. f_equal. by apply IH.
Qed.


(** The entries a feed lists are those of the loop, last added first. *)
Lemma add_entries_rev (entries acc : list entry) :
  fold_left (fun fg e => add_entry e fg) entries acc = (rev entries ++ acc)%list.
Proof.
  revert acc. induction entries as [|e l IH]; intros acc; simpl; [done|].
  rewrite IH. unfold add_entry. by rewrite <- app_assoc.
Qed.

Lemma fg_entries_feed_of feed_title output_file entries :
  fg_entries (feed_of W feed_title output_file entries) = rev entries.
Proof. unfold feed_of. cbn [fg_entries]. by rewrite add_entries_rev, app_nil_r. Qed.

Lemma rmap_list_app {A B} (f : A -> result B) l1 l2 r1 r2 :
  rmap_list f l1 = Ok r1 -> rmap_list f l2 = Ok r2 ->
  rmap_list f (l1 ++ l2) = Ok (r1 ++ r2)%list.
Proof.
  revert r1. induction l1 as [|x l IH]; simpl; intros r1.
  - by intros [= <-].
  - destruct (f x); simpl; [|done].
    destruct (rmap_list f l) eqn:E; simpl; [|done].
    intros [= <-] H2. by rewrite (IH _ eq_refl H2).
Qed.

Lemma rmap_list_rev {A B} (f : A -> result B) l r :
  rmap_list f l = Ok r -> rmap_list f (rev l) = Ok (rev r).
Proof.
  revert r. induction l as [|x l IH]; simpl; intros r.
  - by intros [= <-].
  - destruct (f x) eqn:Hx; simpl; [|done].
    destruct (rmap_list f l) eqn:E; simpl; [|done].
    intros [= <-]. simpl. apply rmap_list_app; [by apply IH|].
    simpl. by rewrite Hx.
Qed.




Lemma nan_not_meets (T : json) : meets_threshold S754_nan T = false.
Proof.
  destruct T; try done. cbn [meets_threshold]. unfold SFleb. by destruct f.
Qed.





End Rendering.

(** ** The order of scores and thresholds *)

Lemma ge_compare_Z (a b : Z) : bool_of_ge (Some (a ?= b)%Z) = (b <=? a)%Z.
Proof.
  simpl. destruct (Z.compare_spec a b), (Z.leb_spec b a); (done || lia).
Qed.

Lemma ge_SFcompare_Z (s : float) (z : Z) :
  bool_of_ge (SFcompare_Z s z) = int_le_float z s.
Proof.
  destruct s as [sg|sg| |sg m e]; cbn [SFcompare_Z int_le_float].
  - apply ge_compare_Z.
  - by destruct sg.
  - done.
  - unfold signed. destruct (0 <=? e)%Z; apply ge_compare_Z.
Qed.

Lemma SFcompare_antisym (f g : float) :
  SFcompare g f = option_map CompOpp (SFcompare f g).
Proof.
  destruct f as [s1|s1| |s1 m1 e1], g as [s2|s2| |s2 m2 e2]; simpl;
    try done; try (by destruct s1); try (by destruct s2);
    try (by destruct s1, s2).
  f_equal. change (Pos.compare_cont Eq m1 m2) with (m1 ?= m2)%positive.
  change (Pos.compare_cont Eq m2 m1) with (m2 ?= m1)%positive.
  rewrite (Z.compare_antisym e1 e2), (Pos.compare_antisym m1 m2).
  destruct s1, s2; try done;
    destruct (e1 ?= e2)%Z; simpl; try done;
    by destruct (m1 ?= m2)%positive.
Qed.

(** The comparison of line 129 is the order [threshold <= score]. *)
Lemma at_least_meets (T : json) (t : Z + float) (s : float) :
  num_view T = Some t -> at_least t s = meets_threshold s T.
Proof.
  destruct T; simpl; try done; intros [= <-]; unfold at_least;
    cbn [num_compare meets_threshold].
  - apply ge_SFcompare_Z.
  - apply ge_SFcompare_Z.
  - unfold SFleb. rewrite (SFcompare_antisym s f).
    by destruct (SFcompare s f) as [[]|].
Qed.

Lemma float_lt_int_not_le (s : float) (z : Z) :
  float_lt_int s z = true -> int_le_float z s = false.
Proof.
  destruct s as [sg|sg| |sg m e]; cbn [float_lt_int int_le_float].
  - intros H. apply Z.ltb_lt in H. apply Z.leb_gt. lia.
  - by intros ->.
  - done.
  - destruct (0 <=? e)%Z; intros H; apply Z.ltb_lt in H; apply Z.leb_gt; lia.
Qed.

Lemma float_eq_int_le (s : float) (z : Z) :
  float_eq_int s z = true -> int_le_float z s = true.
Proof.
  destruct s as [sg|sg| |sg m e]; cbn [float_eq_int int_le_float]; try done.
  - intros H. apply Z.eqb_eq in H. apply Z.leb_le. lia.
  - destruct (0 <=? e)%Z; intros H; apply Z.eqb_eq in H; apply Z.leb_le; lia.
Qed.

Lemma below_not_meets (s : float) (T : json) :
  below_threshold s T = true -> meets_threshold s T = false.
Proof.
  destruct T; cbn [below_threshold meets_threshold]; try done;
    try apply float_lt_int_not_le.
  unfold SFltb, SFleb. rewrite (SFcompare_antisym s f).
  by destruct (SFcompare s f) as [[]|].
Qed.

Lemma equals_meets (s : float) (T : json) :
  equals_threshold s T = true -> meets_threshold s T = true.
Proof.
  destruct T; cbn [equals_threshold meets_threshold]; try done;
    try apply float_eq_int_le.
  unfold SFeqb, SFleb. rewrite (SFcompare_antisym s f).
  by destruct (SFcompare s f) as [[]|].
Qed.

Section OrchestratorClaims.

Context (W : World).

Lemma filter_by_impact_spec works email T t :
  num_view T = Some t ->
  forall st, exists scores st',
    score_all W works email st = (Ok scores, st')
    /\ length scores = length works
    /\ filter_by_impact W works email T st
       = (Ok (map fst (List.filter (fun ws => at_least t (snd ws))
                         (combine works scores))), st').
Proof.
  intros HT. induction works as [|w ws IH]; intros st.
  - by exists [], st.
  - destruct (scorer_total W w email st) as (score & st1 & Hs).
    destruct (IH st1) as (scores & st' & Hall & Hlen & Hf).
    exists (score :: scores), st'. unfold score_all in *. simpl.
    unfold bind at 1. rewrite Hs. unfold bind at 1. rewrite Hall.
    split; [done|]. split; [simpl; by rewrite Hlen|].
    unfold bind at 1. rewrite Hs. unfold bind at 1, lift, py_float_ge.
    rewrite HT. unfold bind at 1. rewrite Hf. unfold ret, at_least.
    by destruct (bool_of_ge (num_compare (inr score) t)).
Qed.

(** C3. For a numeric threshold [T], the list comprehension of line 129
    calls the scorer once per fetched work, in order, and keeps exactly
    the works whose call returned a score with [T <= score], the order of
    the floats and of the integers; a work whose score equals [T] is kept,
    and a work all of whose scores lie below [T], or are NaN, is not.  The
    sort that follows permutes these works, and the feed written for the
    query has one entry for each of them and no other. *)
Theorem filter_keeps_scores_at_or_above_threshold
    (works : list json) (email T : json) (t : Z + float) (st : state) :
  num_view T = Some t ->
  exists scores filtered st',
    score_all W works email st = (Ok scores, st')
    /\ length scores = length works
    /\ filter_by_impact W works email T st = (Ok filtered, st')
    /\ filtered = map fst (List.filter (fun ws => meets_threshold (snd ws) T)
                             (combine works scores))
    /\ (forall w, In w filtered <->
                  exists s, In (w, s) (combine works scores)
                            /\ meets_threshold s T = true)
    /\ (forall w s, In (w, s) (combine works scores) ->
                    equals_threshold s T = true -> In w filtered)
    /\ (forall w,
          (forall s, In (w, s) (combine works scores) ->
                     below_threshold s T = true \/ s = S754_nan) ->
          ~ In w filtered)
    /\ (forall sorted, sort_by_date W filtered = Ok sorted ->
                       Permutation sorted filtered)
    /\ (forall feed_name output_path st_end,
          filter_sort_render W feed_name output_path (JList works) email T st
          = (Ok tt, st_end) ->
          exists sorted entries fd,
            sort_by_date W filtered = Ok sorted
            /\ Permutation sorted filtered
            /\ rmap_list (item_entry W) sorted = Ok entries
            /\ files st_end = (files st ++ [(output_path, fd)])%list
            /\ fg_title fd = feed_name
            /\ fg_entries fd = rev entries
            /\ length (fg_entries fd) = length filtered).
Proof.
  intros HT.
  destruct (filter_by_impact_spec works email T t HT st)
    as (scores & st' & Hall & Hlen & Hf).
  rewrite (List.filter_ext (fun ws => at_least t (snd ws))
             (fun ws => meets_threshold (snd ws) T)) in Hf
    by (intros ws; by apply at_least_meets).
  eexists scores, _, st'. split; [done|]. split; [done|]. split; [exact Hf|].
  split; [done|].
  assert (forall w, In w (map fst (List.filter
                                     (fun ws => meets_threshold (snd ws) T)
                                     (combine works scores))) <->
                    exists s, In (w, s) (combine works scores)
                              /\ meets_threshold s T = true) as Hin.
  { intros w. rewrite in_map_iff. split.
    - intros ([w' s] & <- & H). apply filter_In in H as [H1 H2]. by exists s.
    - intros (s & H1 & H2). exists (w, s). split; [done|].
      by apply filter_In. }
  split; [exact Hin|]. split; [|split; [|split]].
  - intros w s H1 H2. apply Hin. exists s. split; [done|].
    by apply equals_meets.
  - intros w Hlow Hw. apply Hin in Hw as (s & H1 & H2).
    destruct (Hlow s H1) as [Hb| ->].
    + apply below_not_meets in Hb. congruence.
    + rewrite nan_not_meets in H2. discriminate.
  - apply sort_by_date_perm.
  - intros feed_name output_path st_end.
    unfold filter_sort_render. unfold bind at 1. simpl.
    unfold bind at 1. rewrite Hf. unfold bind at 1, lift.
    destruct (sort_by_date W _) as [sorted|] eqn:Hsort; [|done].
    unfold bind at 1, print. unfold bind at 1.
    destruct (generate_rss_feed_spec W feed_name sorted output_path
                (log_line (Returned feed_name (length works) (length sorted)) st'))
      as (st1 & Hfiles & _ & _ & ->).
    destruct (rmap_list (item_entry W) sorted) as [entries|] eqn:Hentries;
      [|done].
    destruct (rss_write W _ output_path); [|done].
    intros [= <-].
    exists sorted, entries, (feed_of W feed_name output_path entries).
    pose proof (sort_by_date_perm W _ _ Hsort) as Hperm.
    split; [done|]. split; [done|]. split; [done|]. split.
    { simpl. rewrite Hfiles. simpl.
      by rewrite (score_all_files W _ _ _ _ _ Hall). }
    split; [done|]. rewrite fg_entries_feed_of. split; [done|].
    rewrite length_rev, (rmap_list_length _ _ _ Hentries).
    by apply Permutation_length.
Qed.

(** C6. Works whose [publication_date] is a string or missing are sorted
    without error: the outcome is a permutation of the filtered list in
    which no work stands before a work with a lexicographically greater
    date, a missing date counting as ["1900-01-01"], and works of equal
    date keep their order.  The renderer adds its entries in that order,
    and each [add_entry] puts the new entry first: the feed written lists
    the entries of the sorted works in the reverse order, the oldest date
    first.  Works dated 2023-05-10, missing and 2024-03-01 are sorted as
    2024-03-01, 2023-05-10, missing, and the feed written for them lists
    the work without date, then 2023-05-10, then 2024-03-01. *)
Theorem feed_lists_the_sorted_works_in_reverse (works : list json) :
  (Forall dated works ->
   exists sorted,
     sort_by_date W works = Ok sorted
     /\ Permutation sorted works
     /\ StronglySorted not_older sorted
     /\ (forall d,
           List.filter (fun w => String.eqb (effective_date w) d) sorted
           = List.filter (fun w => String.eqb (effective_date w) d) works)
     /\ StronglySorted
          (fun a b => String.leb (effective_date a) (effective_date b) = true)
          (rev sorted)
     /\ (forall feed_name output_path st st',
           generate_rss_feed W feed_name sorted output_path st = (Ok tt, st') ->
           exists fd,
             files st' = (files st ++ [(output_path, fd)])%list
             /\ rmap_list (item_entry W) (rev sorted) = Ok (fg_entries fd)
             /\ length (fg_entries fd) = length works))
  /\ sort_by_date W [work_may; work_undated; work_march]
     = Ok [work_march; work_may; work_undated]
  /\ (forall st, exists fd st',
        generate_rss_feed example_world (JStr "polymers")
          [work_march; work_may; work_undated] "feeds/polymers.xml" st
        = (Ok tt, st')
        /\ files st' = (files st ++ [("feeds/polymers.xml", fd)])%list
        /\ map (fun en => (entry_title en, entry_pubDate en)) (fg_entries fd)
           = [("Undated", Some "Mon, 01 Jan 2024 00:00:00 +0000");
              ("May", Some "Wed, 10 May 2023 00:00:00 +0000");
              ("A &lt;B&gt; C", Some "Fri, 01 Mar 2024 00:00:00 +0000")]).
Proof.
  split; [|split; [done|]].
  - intros Hd. exists (map snd (by_date works)).
    pose proof (sort_by_date_dated W works Hd) as Hsort.
    pose proof (sort_by_date_perm W _ _ Hsort) as Hperm.
    split; [done|]. split; [done|].
    split; [apply by_date_sorted|]. split; [apply by_date_stable|].
    split; [exact (StronglySorted_rev _ _ (by_date_sorted works))|].
    intros feed_name output_path st st' Hg.
    destruct (generate_rss_feed_spec W feed_name (map snd (by_date works))
                output_path st) as (st1 & Hf & _ & _ & Hspec).
    rewrite Hspec in Hg.
    destruct (rmap_list (item_entry W) (map snd (by_date works)))
      as [entries|] eqn:Hentries; [|done].
    exists (feed_of W feed_name output_path entries).
    destruct (rss_write W _ output_path); [|done].
    injection Hg as <-. rewrite fg_entries_feed_of.
    split; [simpl; by rewrite Hf|]. split; [by apply rmap_list_rev|].
    rewrite length_rev, (rmap_list_length _ _ _ Hentries).
    by apply Permutation_length.
  - intros st.
    destruct (generate_rss_feed_spec example_world (JStr "polymers")
                [work_march; work_may; work_undated] "feeds/polymers.xml" st)
      as (st1 & Hf & _ & _ & Hspec).
    destruct (rmap_list (item_entry example_world)
                [work_march; work_may; work_undated]) as [entries|] eqn:Hentries;
      [|by vm_compute in Hentries].
    change (rss_write example_world
              (feed_of example_world (JStr "polymers") "feeds/polymers.xml" entries)
              "feeds/polymers.xml") with (Ok tt : result unit) in Hspec.
    eexists _, _. split; [exact Hspec|]. split; [simpl; by rewrite Hf|].
    rewrite fg_entries_feed_of. vm_compute in Hentries.
    injection Hentries as <-. reflexivity.
Qed.


End OrchestratorClaims.

Lemma filter_threshold_witness :
  exists st',
    filter_by_impact example_world [work_may; work_undated; work_march]
      (JStr "me@example.org") (JFloat float_2_5) initial_state
    = (Ok [work_may; work_march], st')
    /\ score_all example_world [work_may; work_undated; work_march]
         (JStr "me@example.org") initial_state
       = (Ok [float_2_5; float_of_Z 1; float_2_5], st')
    /\ meets_threshold float_2_5 (JFloat float_2_5) = true
    /\ meets_threshold (float_of_Z 1) (JFloat float_2_5) = false.
Proof.
  destruct (filter_keeps_scores_at_or_above_threshold example_world
              [work_may; work_undated; work_march] (JStr "me@example.org")
              (JFloat float_2_5) (inr float_2_5) initial_state eq_refl)
    as (scores & filtered & st' & Hall & _ & Hf & Heq & _).
  exists st'.
  assert (scores = [float_2_5; float_of_Z 1; float_2_5]) as Hscores.
  { vm_compute in Hall. injection Hall as <- _. reflexivity. }
  subst scores. split; [|split; [exact Hall|split; reflexivity]].
  rewrite Hf, Heq. reflexivity.
Defined.

Lemma feed_lists_in_reverse_witness :
  exists sorted,
    sort_by_date example_world [work_may; work_undated; work_march] = Ok sorted
    /\ Permutation sorted [work_may; work_undated; work_march]
    /\ StronglySorted not_older sorted
    /\ StronglySorted
         (fun a b => String.leb (effective_date a) (effective_date b) = true)
         (rev sorted).
Proof.
  destruct (proj1 (feed_lists_the_sorted_works_in_reverse example_world
                     [work_may; work_undated; work_march]))
    as (sorted & H1 & H2 & H3 & _ & H4 & _).
  - repeat constructor.
  - by exists sorted.
Defined.


(** ** The orchestrator's loop and the configuration *)

Section MainClaims.

Context (W : World).

(** C7, as amended.  A query that is a mapping with a [feed_name] and
    whose [type] is neither ["keyword"] nor ["authors"] prints the
    diagnostic and is skipped: the iteration raises nothing, issues no
    request and writes no file, and the loop goes on with the following
    queries as it would have without the skipped one. *)
Theorem unknown_query_type_is_skipped
    (email T : json) (key : string) (q : list (string * json))
    (query_type feed_name : json) (rest : list (string * json)) (st : state) :
  assoc "type" q = Some query_type ->
  py_eq_str query_type "keyword" = false ->
  py_eq_str query_type "authors" = false ->
  assoc "feed_name" q = Some feed_name ->
  main_query W email T (JDict q) st
    = (Ok tt, log_line (UnknownQueryType query_type) st)
  /\ main_loop W email T ((key, JDict q) :: rest) st
     = main_loop W email T rest (log_line (UnknownQueryType query_type) st).
Proof.
  intros Hty Hk Ha Hf.
  assert (main_query W email T (JDict q) st
          = (Ok tt, log_line (UnknownQueryType query_type) st)) as Hq.
  { unfold main_query, bind, lift, py_get, py_getitem. rewrite Hty, Hf.
    unfold query_works. rewrite Hk, Ha. reflexivity. }
  split; [done|]. simpl. unfold bind at 1. by rewrite Hq.
Qed.

(** C10. A query without a [type] key runs as the same query with
    [type: keyword]: without a [search] field it raises [KeyError], with
    one it fetches the keyword query and goes on to filter, sort and
    render. *)
Theorem missing_type_defaults_to_keyword
    (email T : json) (q : list (string * json)) (st : state) :
  assoc "type" q = None ->
  main_query W email T (JDict q) st
    = main_query W email T (JDict (("type", JStr "keyword") :: q)) st
  /\ (forall feed_name,
        assoc "feed_name" q = Some feed_name ->
        assoc "search" q = None ->
        main_query W email T (JDict q) st = (Raise (Exn KeyError "search"), st))
  /\ (forall feed_name search_str,
        assoc "feed_name" q = Some feed_name ->
        assoc "search" q = Some search_str ->
        main_query W email T (JDict q) st
        = bind (fetch_openalex_works W (keyword_params search_str) email 50)
               (fun works =>
                  filter_sort_render W feed_name
                    (os_path_join feeds_dir (py_str W feed_name +:+ ".xml"))
                    works email T) st).
Proof.
  intros Hty. split; [|split].
  - unfold main_query, bind, lift, py_get, py_getitem. simpl. rewrite Hty.
    destruct (assoc "feed_name" q); [|done].
    unfold query_works. simpl. reflexivity.
  - intros feed_name Hf Hs.
    unfold main_query, bind, lift, py_get, py_getitem. rewrite Hty, Hf.
    unfold query_works. simpl. unfold bind, lift, py_getitem. by rewrite Hs.
  - intros feed_name search_str Hf Hs.
    unfold main_query, bind, lift, py_get, py_getitem. rewrite Hty, Hf.
    unfold query_works. simpl. unfold bind, lift, py_getitem, ret. rewrite Hs.
    by destruct (fetch_openalex_works W (keyword_params search_str) email 50 st)
      as [[works|e] st1].
Qed.

(** C4, as amended.  [load_settings] returns the value the YAML parser
    yields for the text of the file, mapping or not, and it raises exactly
    when [open] raises or the parser raises, with that very exception.  In
    [main] either failure ends the run: the exception leaves [main] before
    any request, line or file; a configuration that is not a mapping ends
    the run in the same way, with the [TypeError] of the first lookup. *)
Theorem load_settings_returns_the_parse_or_its_exception (path : string) :
  (forall config,
      load_settings W path = Ok config <->
      exists text, open_read W path = Ok text
                   /\ yaml_safe_load W text = Ok config)
  /\ (forall e,
        load_settings W path = Raise e <->
        open_read W path = Raise e
        \/ exists text, open_read W path = Ok text
                        /\ yaml_safe_load W text = Raise e)
  /\ (forall e st,
        os_makedirs W feeds_dir = Ok tt ->
        open_read W settings_path = Raise e ->
        main W st = (Raise e, st))
  /\ (forall text e st,
        os_makedirs W feeds_dir = Ok tt ->
        open_read W settings_path = Ok text ->
        yaml_safe_load W text = Raise e ->
        main W st = (Raise e, st))
  /\ (forall text config st,
        os_makedirs W feeds_dir = Ok tt ->
        open_read W settings_path = Ok text ->
        yaml_safe_load W text = Ok config ->
        is_dict config = false ->
        exists e, main W st = (Raise e, st) /\ exn_cls e = TypeError).
Proof.
  split; [|split; [|split; [|split]]].
  - intros config. unfold load_settings.
    destruct (open_read W path) as [text|e0]; simpl; split.
    + intros H. by exists text.
    + by intros (text' & [= <-] & H).
    + done.
    + by intros (text' & [=] & _).
  - intros e. unfold load_settings.
    destruct (open_read W path) as [text|e0]; simpl; split.
    + intros H. right. by exists text.
    + by intros [[=]|(text' & [= <-] & H)].
    + intros [= ->]. by left.
    + intros [[= ->]|(text' & H & _)]; [done|discriminate H].
  - intros e st Hm Hr. unfold main, bind, lift, load_settings.
    by rewrite Hm, Hr.
  - intros text e st Hm Hr Hy. unfold main, bind, lift, load_settings.
    rewrite Hm, Hr. simpl. by rewrite Hy.
  - intros text config st Hm Hr Hy Hd. unfold main, bind, lift, load_settings.
    rewrite Hm, Hr. simpl. rewrite Hy.
    destruct config; try done; by eexists.
Qed.

End MainClaims.

Lemma unknown_query_type_witness :
  let email := JStr "me@example.org" in
  let q := [("type", JStr "foo"); ("feed_name", JStr "skipped")] in
  let rest := [("second", JDict [("feed_name", JStr "polymers");
                                 ("search", JStr "polymer brushes")])] in
  main_query example_world email (JFloat float_2_5) (JDict q) initial_state
    = (Ok tt, log_line (UnknownQueryType (JStr "foo")) initial_state)
  /\ main_loop example_world email (JFloat float_2_5)
       (("first", JDict q) :: rest) initial_state
     = main_loop example_world email (JFloat float_2_5) rest
         (log_line (UnknownQueryType (JStr "foo")) initial_state).
Proof.
  intros email q rest.
  apply (unknown_query_type_is_skipped example_world email (JFloat float_2_5)
           "first" q (JStr "foo") (JStr "skipped") rest initial_state);
    reflexivity.
Defined.

(** C7 as stated fails: a query of unknown type that has no [feed_name]
    raises [KeyError] before its type is looked at; nothing is printed and
    the keyword query configured after it is never run. *)
Lemma unknown_type_without_feed_name_raises :
  main_loop example_world (JStr "me@example.org") (JFloat float_2_5)
    [("first", JDict [("type", JStr "foo")]);
     ("second", JDict [("feed_name", JStr "polymers");
                       ("search", JStr "polymer brushes")])]
    initial_state
  = (Raise (Exn KeyError "feed_name"), initial_state).
Proof. reflexivity. Qed.

Lemma missing_type_witness :
  let q := [("feed_name", JStr "polymers")] in
  main_query example_world JNull JNull (JDict q) initial_state
    = (Raise (Exn KeyError "search"), initial_state).
Proof.
  intros q.
  apply (proj1 (proj2 (missing_type_defaults_to_keyword example_world JNull JNull
                         q initial_state eq_refl))
           (JStr "polymers") eq_refl eq_refl).
Defined.

Lemma load_settings_witness :
  main offline_world initial_state
  = (Raise (Exn OSError "No such file or directory"), initial_state)
  /\ exists e,
       main blank_world initial_state = (Raise e, initial_state)
       /\ exn_cls e = TypeError.
Proof.
  destruct (load_settings_returns_the_parse_or_its_exception offline_world
              settings_path) as (_ & _ & Hmissing & _ & _).
  destruct (load_settings_returns_the_parse_or_its_exception blank_world
              settings_path) as (_ & _ & _ & _ & Hunchecked).
  split.
  - apply Hmissing; reflexivity.
  - apply (Hunchecked "" JNull); reflexivity.
Defined.

(** C4 as stated fails: an empty settings file is read without failure
    and the value returned is [None], not a mapping; a missing file raises
    the [OSError] of [open], the script having no exception class of its
    own. *)
Lemma load_settings_returns_a_non_mapping :
  load_settings blank_world settings_path = Ok JNull
  /\ is_dict JNull = false
  /\ load_settings offline_world settings_path
     = Raise (Exn OSError "No such file or directory").
Proof. repeat split. Qed.

(** ** The script at work *)

(** Title escaping and link derivation (lines 64 and 70-75). *)
Example escape_title_example :
  py_escape_title (JStr "A <B> & C") = Ok "A &lt;B&gt; & C".
Proof. reflexivity. Qed.

Example link_of_examples :
  link_of (JStr "10.1/xyz") = Ok "https://doi.org/10.1/xyz"
  /\ link_of (JStr "https://doi.org/10.1/xyz") = Ok "https://doi.org/10.1/xyz"
  /\ link_of (JStr "") = Ok "https://openalex.org"
  /\ link_of JNull = Raise (no_attribute JNull "startswith").
Proof. repeat split. Qed.

(** A date-only string, parsed, put in UTC and printed as RFC 2822. *)
Example pubdate_text_example :
  pubdate_text example_world (JStr "2024-01-01")
  = Ok "Mon, 01 Jan 2024 00:00:00 +0000".
Proof. reflexivity. Qed.

(** A whole run: the query of unknown type is skipped, the keyword query
    fetches three works, two of which reach the threshold 2.5; the newer
    one is added first, and the feed lists it last. *)
Example main_example :
  let (r, st) := main example_world initial_state in
  r = Ok tt
  /\ stdout st
     = [UnknownQueryType (JStr "foo");
        QueryURL works_url;
        Returned (JStr "polymers") 3 2;
        GeneratedFeed "feeds/polymers.xml"]
  /\ map req_url (requests_made st)
     = [works_url; sources_url "S1"; sources_url "S2"]
  /\ map (fun f => (fst f, map entry_pubDate (fg_entries (snd f)))) (files st)
     = [("feeds/polymers.xml",
         [Some "Wed, 10 May 2023 00:00:00 +0000";
          Some "Fri, 01 Mar 2024 00:00:00 +0000"])].
Proof. vm_compute. repeat split. Qed.

(** * Further properties *)

#[local] Set Warnings "-clear-no-such-hyp".

(** ** [fetch_openalex_works] *)

Section DictSet.

Lemma assoc_dict_set_eq k v d : assoc k (dict_set k v d) = Some v.
Proof.
  induction d as [|[k' v'] d IH]; simpl.
  - by rewrite String.eqb_refl.
  - destruct (String.eqb k k') eqn:E; simpl; [by rewrite String.eqb_refl|].
    by rewrite E.
Qed.

Lemma assoc_dict_set_ne k k' v d :
  k <> k' -> assoc k' (dict_set k v d) = assoc k' d.
Proof.
  intros Hne. induction d as [|[k0 v0] d IH]; simpl.
  - apply String.eqb_neq in Hne. rewrite String.eqb_sym in Hne. by rewrite Hne.
  - destruct (String.eqb k k0) eqn:E; simpl.
    + apply String.eqb_eq in E as <-.
      assert (String.eqb k' k = false) as ->; [|done].
      apply String.eqb_neq. congruence.
    + by rewrite IH.
Qed.

End DictSet.

Section Fetcher.

Context (W : World).

(** The whole of [fetch_openalex_works], outcome by outcome. *)
Lemma fetch_spec params email n st :
  fetch_openalex_works W params email n st =
    let rq := works_request params email n in
    let st1 := log_request rq st in
    match requests_get W (requests_made st) rq with
    | Raise e => (Raise e, st1)
    | Ok response =>
        let st2 := log_line (QueryURL (resp_url response)) st1 in
        (rbind (resp_status response) (fun _ =>
         rbind (resp_json response) (fun data => py_getitem data "results")),
         st2)
    end.
Proof.
  unfold fetch_openalex_works, works_request, bind, http_get, print, lift.
  simpl. destruct (requests_get W _ _) as [response|]; [|done].
  destruct (resp_status response); [|done]. simpl.
  by destruct (resp_json response).
Qed.

(** X1. Whatever the outcome, one request is issued, to the works
    endpoint; [per_page] is the result cap and [mailto] the email, also
    when the caller's parameters already had these keys, and every other
    parameter is passed on as given. *)
Theorem fetch_request_carries_page_size_and_mailto
    (params : list (string * json)) (email : json) (n : Z) (st : state) :
  let rq := works_request params email n in
  requests_made (snd (fetch_openalex_works W params email n st))
    = (requests_made st ++ [rq])%list
  /\ req_url rq = works_url
  /\ assoc "per_page" (req_params rq) = Some (JInt n)
  /\ assoc "mailto" (req_params rq) = Some email
  /\ (forall k, k <> "per_page" -> k <> "mailto" ->
                assoc k (req_params rq) = assoc k params).
Proof.
  intros rq. split; [|split; [done|split; [|split]]].
  - rewrite fetch_spec. simpl. by destruct (requests_get W _ _).
  - unfold rq, works_request. simpl.
    rewrite assoc_dict_set_ne by done. apply assoc_dict_set_eq.
  - apply assoc_dict_set_eq.
  - intros k H1 H2. unfold rq, works_request. simpl.
    rewrite assoc_dict_set_ne by done. by rewrite assoc_dict_set_ne.
Qed.

(** X2. The fetcher returns a value exactly when the request was
    answered, the status check passed, the body decoded and the body has a
    [results] key: the value is that field, and the state has the request
    and the printed URL added, nothing else. *)
Theorem fetch_returns_results_after_status_check
    (params : list (string * json)) (email : json) (n : Z) (st st' : state)
    (v : json) :
  fetch_openalex_works W params email n st = (Ok v, st')
  <-> exists response data,
        requests_get W (requests_made st) (works_request params email n)
          = Ok response
        /\ resp_status response = Ok tt
        /\ resp_json response = Ok data
        /\ py_getitem data "results" = Ok v
        /\ st' = log_line (QueryURL (resp_url response))
                   (log_request (works_request params email n) st).
Proof.
  rewrite fetch_spec. simpl. split.
  - destruct (requests_get W _ _) as [response|]; [|done].
    destruct (resp_status response) as [[]|] eqn:Hs; simpl; [|done].
    destruct (resp_json response) as [data|] eqn:Hj; simpl; [|done].
    intros [= Hr <-]. by exists response, data.
  - intros (response & data & -> & Hs & Hj & Hr & ->).
    by rewrite Hs, Hj; simpl; rewrite Hr.
Qed.

(** X3. A request that raises propagates before anything is printed; a
    failing status check raises after the URL was printed, whatever the
    body; a body without [results] raises [KeyError]. *)
Theorem fetch_failures_propagate
    (params : list (string * json)) (email : json) (n : Z) (st : state) :
  let rq := works_request params email n in
  (forall e,
      requests_get W (requests_made st) rq = Raise e ->
      fetch_openalex_works W params email n st = (Raise e, log_request rq st))
  /\ (forall response e,
        requests_get W (requests_made st) rq = Ok response ->
        resp_status response = Raise e ->
        fetch_openalex_works W params email n st
        = (Raise e, log_line (QueryURL (resp_url response)) (log_request rq st)))
  /\ (forall response d,
        requests_get W (requests_made st) rq = Ok response ->
        resp_status response = Ok tt ->
        resp_json response = Ok (JDict d) ->
        assoc "results" d = None ->
        fetch_openalex_works W params email n st
        = (Raise (Exn KeyError "results"),
           log_line (QueryURL (resp_url response)) (log_request rq st))).
Proof.
  intros rq. split; [|split].
  - intros e He. rewrite fetch_spec. simpl. fold rq. by rewrite He.
  - intros response e Hr Hs. rewrite fetch_spec. simpl. fold rq.
    by rewrite Hr, Hs.
  - intros response d Hr Hs Hj Hd. rewrite fetch_spec. simpl. fold rq.
    rewrite Hr, Hs, Hj. simpl. by rewrite Hd.
Qed.

End Fetcher.

Lemma fetch_returns_results_witness :
  let email := JStr "me@example.org" in
  let params := keyword_params (JStr "polymer brushes") in
  fetch_openalex_works example_world params email 50 initial_state
  = (Ok (JList [work_may; work_march; work_undated]),
     log_line (QueryURL works_url)
       (log_request (works_request params email 50) initial_state)).
Proof.
  intros email params.
  apply (fetch_returns_results_after_status_check example_world).
  eexists _, _. repeat split; reflexivity.
Defined.

Lemma fetch_failures_witness :
  let email := JStr "me@example.org" in
  let params := keyword_params (JStr "polymer brushes") in
  fetch_openalex_works offline_world params email 50 initial_state
  = (Raise (Exn RequestException "Connection refused"),
     log_request (works_request params email 50) initial_state).
Proof.
  intros email params.
  apply (fetch_failures_propagate offline_world params email 50 initial_state).
  reflexivity.
Defined.

(** ** [get_journal_impact_score], further *)

Section ScorerFurther.

Context (W : World).

Lemma journal_id_of_url work p i :
  source_id_url work = Ok (JStr (p +:+ String slash i)) ->
  contains_char slash i = false ->
  journal_id_of work = Some i.
Proof.
  intros Hs Hi. unfold journal_id_of. rewrite Hs.
  assert (String.eqb (p +:+ String slash i) "" = false) as ->.
  { apply String.eqb_neq. by destruct p. }
  by rewrite last_segment_after_slash.
Qed.

(** X4. The journal id is the text after the last slash of the source
    id: for an id of that journal not yet memoised the call issues one
    request, to [https://api.openalex.org/sources/<id>] with the email as
    [mailto]; when it is memoised the call returns the memoised value and
    changes nothing, whatever precedes the last slash. *)
Theorem journal_is_requested_by_last_path_segment
    (work email : json) (p i : string) (st : state) :
  source_id_url work = Ok (JStr (p +:+ String slash i)) ->
  contains_char slash i = false ->
  match journal_cache st !! i with
  | Some impact => get_journal_impact_score W work email st = (Ok impact, st)
  | None =>
      requests_made (snd (get_journal_impact_score W work email st))
      = (requests_made st
         ++ [{| req_url := "https://api.openalex.org/sources/" +:+ i;
                req_params := [("mailto", email)] |}])%list
  end.
Proof.
  intros Hs Hi. rewrite (scorer_resolved W _ _ _ _ (journal_id_of_url _ _ _ Hs Hi)).
  destruct (journal_cache st !! i); [done|]. simpl.
  by destruct (source_impact W (requests_made st) i email).
Qed.

(** X5. A sources answer that lacks [summary_stats], or whose
    [summary_stats] lacks [2yr_mean_citedness], scores [0.0] without a
    diagnostic and is memoised; an answer whose [summary_stats] is null
    scores [0.0] through the handler and is not memoised. *)
Theorem missing_citedness_is_memoised_as_zero
    (work email : json) (j : string) (st : state) (response : response)
    (d : list (string * json)) :
  journal_id_of work = Some j ->
  journal_cache st !! j = None ->
  requests_get W (requests_made st) (sources_request j email) = Ok response ->
  resp_status response = Ok tt ->
  resp_json response = Ok (JDict d) ->
  let st1 := log_request (sources_request j email) st in
  (assoc "summary_stats" d = None ->
   get_journal_impact_score W work email st = (Ok zero, store_impact j zero st1))
  /\ (forall stats,
        assoc "summary_stats" d = Some (JDict stats) ->
        assoc "2yr_mean_citedness" stats = None ->
        get_journal_impact_score W work email st
        = (Ok zero, store_impact j zero st1))
  /\ (assoc "summary_stats" d = Some JNull ->
      get_journal_impact_score W work email st
      = (Ok zero, log_line (ErrorFetchingImpact (no_attribute JNull "get")) st1)).
Proof.
  intros Hj Hc Hr Hs Hd st1.
  rewrite (scorer_resolved W _ _ _ _ Hj), Hc. simpl. fold st1.
  unfold source_impact. rewrite Hr. simpl. rewrite Hs, Hd. simpl.
  split; [|split].
  - by intros ->.
  - intros stats -> Hm. simpl. by rewrite Hm.
  - by intros ->.
Qed.

(** X28. A lookup that is answered with a body whose
    [summary_stats.2yr_mean_citedness] is a float scores exactly that
    float; an integer scores its conversion to float (unless it is too
    large for one, which scores [0.0] through the handler, unmemoised).
    A score obtained this way is memoised and nothing is printed. *)
Theorem answered_lookup_scores_the_citedness
    (work email : json) (j : string) (st : state) (response : response)
    (d stats : list (string * json)) :
  journal_id_of work = Some j ->
  journal_cache st !! j = None ->
  requests_get W (requests_made st) (sources_request j email) = Ok response ->
  resp_status response = Ok tt ->
  resp_json response = Ok (JDict d) ->
  assoc "summary_stats" d = Some (JDict stats) ->
  let st1 := log_request (sources_request j email) st in
  (forall f,
      assoc "2yr_mean_citedness" stats = Some (JFloat f) ->
      get_journal_impact_score W work email st = (Ok f, store_impact j f st1))
  /\ (forall z,
        assoc "2yr_mean_citedness" stats = Some (JInt z) ->
        get_journal_impact_score W work email st
        = match float_of_Z z with
          | S754_infinity _ =>
              (Ok zero,
               log_line (ErrorFetchingImpact
                           (Exn OverflowError "int too large to convert to float"))
                 st1)
          | f => (Ok f, store_impact j f st1)
          end).
Proof.
  intros Hj Hc Hr Hs Hd Hstats st1.
  assert (source_impact W (requests_made st) j email
          = py_float W (match assoc "2yr_mean_citedness" stats with
                        | Some v => v
                        | None => JFloat zero
                        end)) as Himpact.
  { unfold source_impact. rewrite Hr. cbn [rbind]. rewrite Hs, Hd. cbn [rbind].
    unfold py_get at 1. by rewrite Hstats. }
  rewrite (scorer_resolved W _ _ _ _ Hj), Hc. cbv zeta. fold st1.
  rewrite Himpact. split.
  - by intros f ->.
  - intros z ->. cbn [py_float]. by destruct (float_of_Z z).
Qed.

(** One call: at most one request, and only for the journal of the work. *)
Lemma scorer_requests work email st :
  exists js,
    requests_made (snd (get_journal_impact_score W work email st))
    = (requests_made st ++ map (fun j => sources_request j email) js)%list
    /\ sublist js (journal_ids [work]).
Proof.
  simpl. destruct (journal_id_of work) as [j|] eqn:Hj.
  - rewrite (scorer_resolved W _ _ _ _ Hj).
    destruct (journal_cache st !! j).
    + exists []. simpl. rewrite app_nil_r. split; [done|]. apply sublist_nil_l.
    + exists [j]. simpl.
      by destruct (source_impact W (requests_made st) j email).
  - destruct (scorer_unresolved W work email st Hj) as (st' & -> & Hr & _).
    exists []. simpl. by rewrite app_nil_r.
Qed.

Lemma score_all_cons_snd work works email st v st1 :
  get_journal_impact_score W work email st = (Ok v, st1) ->
  snd (score_all W (work :: works) email st)
  = snd (score_all W works email st1).
Proof.
  intros Hv. unfold score_all. simpl. unfold bind at 1. rewrite Hv.
  unfold bind. by destruct (mapM _ works st1) as [[?|?] ?].
Qed.

Lemma length_journal_ids works : (length (journal_ids works) <= length works)%nat.
Proof.
  induction works as [|w ws IH]; simpl; [done|].
  destruct (journal_id_of w); simpl; lia.
Qed.

(** X6. Scoring a list of works issues sources requests only: one for
    each of some of the works that resolve to a journal id, in the order
    of the works.  So there are at most as many requests as works, and a
    list of works without journal ids issues none. *)
Theorem score_all_requests_follow_the_works
    (works : list json) (email : json) (st : state) :
  exists js,
    requests_made (snd (score_all W works email st))
    = (requests_made st ++ map (fun j => sources_request j email) js)%list
    /\ sublist js (journal_ids works)
    /\ (length js <= length works)%nat.
Proof.
  cut (exists js,
          requests_made (snd (score_all W works email st))
          = (requests_made st ++ map (fun j => sources_request j email) js)%list
          /\ sublist js (journal_ids works)).
  { intros (js & H1 & H2). exists js. split; [done|]. split; [done|].
    apply sublist_length in H2. pose proof (length_journal_ids works). lia. }
  revert st. induction works as [|w ws IH]; intros st.
  - exists []. simpl. rewrite app_nil_r. split; [done|]. constructor.
  - destruct (scorer_requests w email st) as (js1 & H1 & S1).
    destruct (scorer_total W w email st) as (v & st1 & Hv).
    rewrite Hv in H1. simpl in H1.
    destruct (IH st1) as (js2 & H2 & S2).
    exists (js1 ++ js2)%list. split.
    + rewrite (score_all_cons_snd _ _ _ _ _ _ Hv), H2, H1, map_app.
      by rewrite app_assoc.
    + assert (journal_ids (w :: ws) = (journal_ids [w] ++ journal_ids ws)%list)
        as -> by (simpl; by destruct (journal_id_of w)).
      by apply sublist_app.
Qed.

Lemma fresh_ids_not_seen seen works j :
  j ∈ fresh_ids seen works -> j ∉ seen.
Proof.
  revert seen. induction works as [|w ws IH]; intros seen; simpl.
  - by intros ?%elem_of_nil.
  - destruct (journal_id_of w) as [j'|]; [|by apply IH].
    destruct (decide (j' ∈ seen)); [by apply IH|].
    intros [->|H]%elem_of_cons; [done|]. apply IH in H. set_solver.
Qed.

Lemma fresh_ids_NoDup seen works : NoDup (fresh_ids seen works).
Proof.
  revert seen. induction works as [|w ws IH]; intros seen; simpl.
  - constructor.
  - destruct (journal_id_of w) as [j|]; [|by apply IH].
    destruct (decide (j ∈ seen)); [by apply IH|].
    constructor; [|by apply IH].
    intros H%fresh_ids_not_seen. set_solver.
Qed.

Lemma score_all_when_lookups_succeed works email :
  forall st,
    (forall w j history,
        w ∈ works -> journal_id_of w = Some j ->
        exists impact, source_impact W history j email = Ok impact) ->
    let st' := snd (score_all W works email st) in
    requests_made st'
      = (requests_made st
         ++ map (fun j => sources_request j email)
              (fresh_ids (dom (journal_cache st)) works))%list
    /\ dom (journal_cache st')
       = dom (journal_cache st) ∪ list_to_set (journal_ids works).
Proof.
  induction works as [|w ws IH]; intros st Hok.
  - simpl. rewrite app_nil_r. split; [done|]. set_solver.
  - assert (forall w' j history,
               w' ∈ ws -> journal_id_of w' = Some j ->
               exists impact, source_impact W history j email = Ok impact) as Hok'.
    { intros w' j h Hw. apply Hok. by right. }
    destruct (scorer_total W w email st) as (v & st1 & Hv).
    cbv zeta. rewrite (score_all_cons_snd _ _ _ _ _ _ Hv).
    destruct (IH st1 Hok') as [Hr Hd]. rewrite Hr, Hd. clear Hr Hd.
    simpl. destruct (journal_id_of w) as [j|] eqn:Hj.
    + rewrite (scorer_resolved W _ _ _ _ Hj) in Hv.
      destruct (journal_cache st !! j) eqn:Hc.
      * injection Hv as _ <-.
        assert (j ∈ dom (journal_cache st)) as Hin
            by (apply elem_of_dom; by eexists).
        destruct (decide (j ∈ dom (journal_cache st))); [|done].
        split; [done|]. simpl. set_solver.
      * simpl in Hv.
        destruct (Hok w j (requests_made st)) as [impact Hi]; [by left|done|].
        rewrite Hi in Hv. injection Hv as _ <-. simpl.
        destruct (decide (j ∈ dom (journal_cache st))) as [Hin|_].
        { apply elem_of_dom in Hin as [? Hin]. congruence. }
        rewrite dom_insert_L. simpl. rewrite <- app_assoc. split; [done|].
        set_solver.
    + destruct (scorer_unresolved W w email st Hj) as (st2 & Hs & Hr & Hc).
      rewrite Hs in Hv. injection Hv as _ <-. by rewrite Hr, Hc.
Qed.

(** X7. When the lookup of every journal the works resolve to succeeds,
    scoring the works requests each journal that is not memoised yet once,
    at its first occurrence: no journal is requested twice in the run, none
    that was memoised is requested, and afterwards all of them are
    memoised. *)
Theorem each_journal_is_requested_once
    (works : list json) (email : json) (st : state) :
  (forall w j history,
      w ∈ works -> journal_id_of w = Some j ->
      exists impact, source_impact W history j email = Ok impact) ->
  let js := fresh_ids (dom (journal_cache st)) works in
  let st' := snd (score_all W works email st) in
  requests_made st'
    = (requests_made st ++ map (fun j => sources_request j email) js)%list
  /\ NoDup js
  /\ (forall j, j ∈ js -> journal_cache st !! j = None)
  /\ dom (journal_cache st')
     = dom (journal_cache st) ∪ list_to_set (journal_ids works).
Proof.
  intros Hok js st'.
  destruct (score_all_when_lookups_succeed works email st Hok) as [Hr Hd].
  split; [exact Hr|]. split; [apply fresh_ids_NoDup|]. split; [|exact Hd].
  intros j Hj%fresh_ids_not_seen. by apply not_elem_of_dom.
Qed.

End ScorerFurther.

Lemma journal_by_last_segment_witness :
  let email := JStr "me@example.org" in
  requests_made (snd (get_journal_impact_score example_world work_may email
                        initial_state))
  = [{| req_url := "https://api.openalex.org/sources/S1";
        req_params := [("mailto", email)] |}].
Proof.
  intros email.
  apply (journal_is_requested_by_last_path_segment example_world work_may email
           "https://openalex.org" "S1" initial_state); reflexivity.
Defined.

Lemma missing_citedness_witness :
  let email := JStr "me@example.org" in
  get_journal_impact_score barren_world work_may email initial_state
  = (Ok zero,
     store_impact "S1" zero
       (log_request (sources_request "S1" email) initial_state)).
Proof.
  intros email.
  apply (missing_citedness_is_memoised_as_zero barren_world work_may email "S1"
           initial_state
           {| resp_url := sources_url "S1"; resp_status := Ok tt;
              resp_json := Ok (JDict [("results", JList [])]) |}
           [("results", JList [])]); reflexivity.
Defined.

Lemma each_journal_once_witness :
  let email := JStr "me@example.org" in
  let works := [work_may; work_undated; work_march; work_bad_date] in
  let st' := snd (score_all example_world works email initial_state) in
  requests_made st'
    = (requests_made initial_state
       ++ map (fun j => sources_request j email)
            (fresh_ids (dom (journal_cache initial_state)) works))%list
  /\ NoDup (fresh_ids (dom (journal_cache initial_state)) works)
  /\ (forall j, j ∈ fresh_ids (dom (journal_cache initial_state)) works ->
                journal_cache initial_state !! j = None)
  /\ dom (journal_cache st')
     = dom (journal_cache initial_state) ∪ list_to_set (journal_ids works).
Proof.
  intros email works.
  apply (each_journal_is_requested_once example_world works email initial_state).
  intros w j history Hw Hj.
  assert (j = "S1" \/ j = "S2") as [-> | ->].
  { repeat (apply elem_of_cons in Hw as [-> | Hw]);
      [vm_compute in Hj; try discriminate; injection Hj as <-; auto ..
      |by apply elem_of_nil in Hw]. }
  - by eexists.
  - by eexists.
Defined.

(** ** The impact filter (line 129), further *)

Section FilterFurther.

Context (W : World).

Lemma filter_by_impact_cons w ws email T st score st1 :
  get_journal_impact_score W w email st = (Ok score, st1) ->
  filter_by_impact W (w :: ws) email T st =
    match py_float_ge score T with
    | Raise e => (Raise e, st1)
    | Ok keep =>
        match filter_by_impact W ws email T st1 with
        | (Ok rest, st2) => (Ok (if keep then w :: rest else rest), st2)
        | (Raise e, st2) => (Raise e, st2)
        end
    end.
Proof.
  intros Hs. simpl. unfold bind at 1. rewrite Hs. unfold bind at 1, lift.
  destruct (py_float_ge score T) as [keep|]; [|done]. unfold bind, ret.
  by destruct (filter_by_impact W ws email T st1) as [[rest|] st2].
Qed.

(** X8. Whatever the threshold, a filter that returns keeps a sublist of
    the fetched works: nothing is added, repeated or reordered. *)
Theorem filtered_works_are_a_sublist
    (works : list json) (email T : json) (st st' : state) (filtered : list json) :
  filter_by_impact W works email T st = (Ok filtered, st') ->
  sublist filtered works.
Proof.
  revert st st' filtered. induction works as [|w ws IH]; intros st st' filtered.
  - intros [= <- _]. constructor.
  - destruct (scorer_total W w email st) as (score & st1 & Hs).
    rewrite (filter_by_impact_cons _ _ _ _ _ _ _ Hs).
    destruct (py_float_ge score T) as [keep|]; [|done].
    destruct (filter_by_impact W ws email T st1) as [[rest|] st2] eqn:E; [|done].
    intros [= <- _]. specialize (IH _ _ _ E).
    destruct keep; by constructor.
Qed.

(** X9. A threshold that is no number is not noticed while nothing was
    fetched; otherwise the comparison of the first score raises
    [TypeError], after the first work was scored and before any other
    is. *)
Theorem non_numeric_threshold_raises_at_first_work
    (w : json) (ws : list json) (email T : json) (st : state) :
  num_view T = None ->
  filter_by_impact W [] email T st = (Ok [], st)
  /\ exists e,
       filter_by_impact W (w :: ws) email T st
       = (Raise e, snd (get_journal_impact_score W w email st))
       /\ exn_cls e = TypeError.
Proof.
  intros HT. split; [done|].
  destruct (scorer_total W w email st) as (score & st1 & Hs).
  rewrite (filter_by_impact_cons _ _ _ _ _ _ _ Hs), Hs.
  unfold py_float_ge. rewrite HT. by eexists.
Qed.

Lemma filter_unresolved works email T t :
  num_view T = Some t ->
  Forall (fun w => journal_id_of w = None) works ->
  forall st, exists st',
    filter_by_impact W works email T st
    = (Ok (if at_least t zero then works else []), st')
    /\ requests_made st' = requests_made st
    /\ journal_cache st' = journal_cache st.
Proof.
  intros HT. induction 1 as [|w ws Hw _ IH]; intros st.
  - exists st. simpl. by destruct (at_least t zero).
  - destruct (scorer_unresolved W w email st Hw) as (st1 & Hs & Hr & Hc).
    destruct (IH st1) as (st2 & Hf & Hr2 & Hc2).
    exists st2. rewrite (filter_by_impact_cons _ _ _ _ _ _ _ Hs), Hf.
    unfold py_float_ge. rewrite HT. fold (at_least t zero).
    split; [by destruct (at_least t zero)|]. split; congruence.
Qed.

(** X10. Works that resolve to no journal id all score [0.0] without any
    request: a numeric threshold that [0.0] reaches (such as the default
    [0.0]) keeps them all, any other drops them all. *)
Theorem works_without_journal_pass_only_at_zero
    (works : list json) (email T : json) (t : Z + float) (st : state) :
  num_view T = Some t ->
  Forall (fun w => journal_id_of w = None) works ->
  exists st',
    filter_by_impact W works email T st
    = (Ok (if at_least t zero then works else []), st')
    /\ requests_made st' = requests_made st
    /\ journal_cache st' = journal_cache st
    /\ at_least (inr zero) zero = true
    /\ (forall z, at_least (inl z) zero = (z <=? 0)%Z).
Proof.
  intros HT Hw. destruct (filter_unresolved works email T t HT Hw st)
    as (st' & ? & ? & ?).
  exists st'. repeat split; try done.
  intros z. by destruct z.
Qed.

Lemma SFcompare_nan_r f : SFcompare f S754_nan = None.
Proof. by destruct f. Qed.

(** X11. No score reaches a NaN threshold, and a NaN score reaches no
    threshold: with a NaN threshold every work is scored and none is
    kept. *)
Theorem nan_threshold_keeps_nothing
    (works : list json) (email : json) (st : state) :
  filter_by_impact W works email (JFloat S754_nan) st
    = (Ok [], snd (score_all W works email st))
  /\ (forall t, at_least t S754_nan = false).
Proof.
  split.
  - destruct (filter_by_impact_spec W works email (JFloat S754_nan)
                (inr S754_nan) eq_refl st) as (scores & st' & Hall & _ & ->).
    rewrite Hall. simpl. f_equal. f_equal.
    assert (forall l : list (json * float),
               List.filter (fun ws => at_least (inr S754_nan) (snd ws)) l = []) as ->;
      [|done].
    induction l as [|[w s] l IH]; [done|]. simpl.
    unfold at_least at 1. simpl. by rewrite SFcompare_nan_r.
  - by intros [z|f].
Qed.

Lemma at_least_int_mono s z1 z2 :
  (z1 <= z2)%Z -> at_least (inl z2) s = true -> at_least (inl z1) s = true.
Proof.
  intros Hz. unfold at_least, num_compare, SFcompare_Z, bool_of_ge.
  assert (forall a, match (a ?= z2)%Z with Gt | Eq => true | Lt => false end = true ->
                    match (a ?= z1)%Z with Gt | Eq => true | Lt => false end = true)
    as Hmono.
  { intros a. destruct (a ?= z2)%Z eqn:E2; try done;
      destruct (a ?= z1)%Z eqn:E1; try done;
      rewrite ?Z.compare_eq_iff, ?Z.compare_lt_iff, ?Z.compare_gt_iff in *; lia. }
  destruct s as [b|b| |b m e]; try done.
  - apply Hmono.
  - destruct (0 <=? e)%Z; [apply Hmono|].
    assert (z1 * 2 ^ (- e) <= z2 * 2 ^ (- e))%Z as Hle
      by (apply Z.mul_le_mono_nonneg_r; [apply Z.pow_nonneg|]; lia).
    set (a := if b then Z.neg m else Z.pos m).
    destruct (a ?= z2 * 2 ^ (- e))%Z eqn:E2; try done;
      destruct (a ?= z1 * 2 ^ (- e))%Z eqn:E1; try done;
      rewrite ?Z.compare_eq_iff, ?Z.compare_lt_iff, ?Z.compare_gt_iff in *; lia.
Qed.

Lemma sublist_filter_weaker {A B} (f1 f2 : A * B -> bool) (l : list (A * B)) :
  (forall x, f2 x = true -> f1 x = true) ->
  sublist (map fst (List.filter f2 l)) (map fst (List.filter f1 l)).
Proof.
  intros Himp. induction l as [|x l IH]; simpl; [constructor|].
  destruct (f2 x) eqn:E2.
  - rewrite (Himp _ E2). simpl. by constructor.
  - destruct (f1 x); simpl; [by constructor|done].
Qed.

(** X12. From the same state, a lower integer threshold keeps every work
    a higher one keeps (and in the same order); the scorer calls, and so
    the final state, are the same for both. *)
Theorem lower_integer_threshold_keeps_more
    (works : list json) (email : json) (z1 z2 : Z) (st : state) :
  (z1 <= z2)%Z ->
  exists kept1 kept2 st',
    filter_by_impact W works email (JInt z1) st = (Ok kept1, st')
    /\ filter_by_impact W works email (JInt z2) st = (Ok kept2, st')
    /\ sublist kept2 kept1.
Proof.
  intros Hz.
  destruct (filter_by_impact_spec W works email (JInt z1) (inl z1) eq_refl st)
    as (scores & st' & Hall & _ & H1).
  destruct (filter_by_impact_spec W works email (JInt z2) (inl z2) eq_refl st)
    as (scores' & st'' & Hall' & _ & H2).
  rewrite Hall in Hall'. injection Hall' as <- <-.
  eexists _, _, st'. split; [exact H1|]. split; [exact H2|].
  apply sublist_filter_weaker. intros [w s]. simpl. by apply at_least_int_mono.
Qed.

End FilterFurther.

Lemma filtered_sublist_witness :
  sublist [work_may; work_march] [work_may; work_undated; work_march].
Proof.
  apply (filtered_works_are_a_sublist example_world
           [work_may; work_undated; work_march] (JStr "me@example.org")
           (JFloat float_2_5) initial_state
           (snd (filter_by_impact example_world
                   [work_may; work_undated; work_march] (JStr "me@example.org")
                   (JFloat float_2_5) initial_state))).
  reflexivity.
Defined.

Lemma non_numeric_threshold_witness :
  filter_by_impact example_world [] JNull (JStr "high") initial_state
    = (Ok [], initial_state)
  /\ exists e,
       filter_by_impact example_world [work_bad_date; work_may] JNull
         (JStr "high") initial_state
       = (Raise e,
          snd (get_journal_impact_score example_world work_bad_date JNull
                 initial_state))
       /\ exn_cls e = TypeError.
Proof.
  apply (non_numeric_threshold_raises_at_first_work example_world work_bad_date
           [work_may] JNull (JStr "high") initial_state).
  reflexivity.
Defined.

Lemma works_without_journal_witness :
  exists st',
    filter_by_impact offline_world [work_bad_date; work_no_location] JNull
      (JInt 1) initial_state
    = (Ok [], st')
    /\ requests_made st' = requests_made initial_state.
Proof.
  destruct (works_without_journal_pass_only_at_zero offline_world
              [work_bad_date; work_no_location] JNull (JInt 1) (inl 1%Z)
              initial_state eq_refl)
    as (st' & H1 & H2 & _).
  - repeat constructor.
  - by exists st'.
Defined.

Lemma lower_threshold_witness :
  exists kept1 kept2 st',
    filter_by_impact example_world [work_may; work_undated; work_march] JNull
      (JInt 1) initial_state = (Ok kept1, st')
    /\ filter_by_impact example_world [work_may; work_undated; work_march] JNull
         (JInt 2) initial_state = (Ok kept2, st')
    /\ sublist kept2 kept1.
Proof.
  apply (lower_integer_threshold_keeps_more example_world
           [work_may; work_undated; work_march] JNull 1 2 initial_state).
  lia.
Defined.

(** ** The sort (lines 131-133), further *)

Section SortFurther.

Context (W : World).

Lemma insert_str_head x l :
  Forall (key_le x) l -> insert_str x l = x :: l.
Proof.
  destruct 1 as [|y l Hy _]; [done|]. simpl.
  unfold key_le in Hy. rewrite leb_ltb in Hy.
  by destruct (String.ltb (fst y) (fst x)).
Qed.

Lemma isort_str_sorted_id l : StronglySorted key_le l -> isort_str l = l.
Proof.
  induction 1 as [|x l Hl IH Hx]; [done|]. simpl. rewrite IH.
  by apply insert_str_head.
Qed.

Lemma by_date_sorted_id works :
  StronglySorted not_older works -> map snd (by_date works) = works.
Proof.
  intros Hs. unfold by_date. rewrite isort_str_sorted_id.
  - by rewrite rev_involutive, map_map, map_id.
  - apply (StronglySorted_rev (flip key_le)).
    apply (StronglySorted_fmap _ not_older); [|done].
    by intros x y.
Qed.

(** X13. Sorting is idempotent: works whose dates are strings or missing
    and that already stand newest first are returned as they are, so
    sorting the outcome of a sort changes nothing. *)
Theorem sort_by_date_is_idempotent (works : list json) :
  Forall dated works ->
  (StronglySorted not_older works -> sort_by_date W works = Ok works)
  /\ exists sorted,
       sort_by_date W works = Ok sorted /\ sort_by_date W sorted = Ok sorted.
Proof.
  intros Hd. split.
  - intros Hs. rewrite (sort_by_date_dated W _ Hd). f_equal.
    by apply by_date_sorted_id.
  - exists (map snd (by_date works)). split; [by apply sort_by_date_dated|].
    assert (Forall dated (map snd (by_date works))) as Hd'.
    { eapply Permutation_Forall; [|exact Hd]. symmetry.
      apply (sort_by_date_perm W). by apply sort_by_date_dated. }
    rewrite (sort_by_date_dated W _ Hd'). f_equal.
    apply by_date_sorted_id, (by_date_sorted works).
Qed.

Lemma py_lt_null_l b : exists e, py_lt W JNull b = Raise e /\ exn_cls e = TypeError.
Proof. unfold py_lt. simpl. destruct (num_view b); by eexists. Qed.

Lemma py_lt_str_null s :
  exists e, py_lt W (JStr s) JNull = Raise e /\ exn_cls e = TypeError.
Proof. by eexists. Qed.

Lemma str_keyed_tag l :
  Forall str_keyed l -> exists l', l = map tag l'.
Proof.
  induction 1 as [|[k w] l [s Hs] _ [l' ->]]; [by exists []|].
  simpl in Hs. subst k. by exists ((s, w) :: l').
Qed.

(** The sort on keys that are strings or null: it returns exactly when no
    comparison meets a null key, that is when all keys are strings or
    there is at most one element. *)
Lemma sort_asc_str_or_null l :
  Forall (fun x => str_keyed x \/ null_keyed x) l ->
  match sort_asc W l with
  | Ok r => Permutation r l /\ (Forall str_keyed l \/ (length l <= 1)%nat)
  | Raise e => exn_cls e = TypeError /\ Exists null_keyed l
  end.
Proof.
  induction 1 as [|x xs Hx Hxs IH]; simpl; [split; [done|by left]|].
  destruct (sort_asc W xs) as [r|e]; simpl.
  2:{ destruct IH. split; [done|by right]. }
  destruct IH as [Hperm Hcase].
  assert (Forall (fun x => str_keyed x \/ null_keyed x) r) as Hr
    by (by rewrite Hperm).
  destruct r as [|y r'].
  { apply Permutation_nil_l in Hperm as <-. simpl. split; [done|right; lia]. }
  simpl. apply Forall_cons in Hr as [Hy Hr'].
  assert (y ∈ xs) as Hyin by (rewrite <- Hperm; by left).
  destruct Hy as [[sy Hsy]|Hny].
  2:{ rewrite Hny. destruct (py_lt_null_l (fst x)) as (e & -> & He). simpl.
      split; [done|]. right. apply Exists_exists. by exists y. }
  destruct Hx as [[sx Hsx]|Hnx].
  2:{ rewrite Hsy, Hnx. simpl. split; [done|]. by left. }
  assert (Forall str_keyed xs) as Hstr.
  { destruct Hcase as [|Hlen]; [done|].
    destruct xs as [|z [|? ?]]; simpl in Hlen; try lia; [done|].
    apply Permutation_length in Hperm as Hl. destruct r'; [|done].
    apply Permutation_singleton_l in Hperm as [= <-].
    constructor; [by exists sy|done]. }
  assert (Forall str_keyed (x :: y :: r')) as Hall.
  { constructor; [by exists sx|]. by rewrite Hperm. }
  destruct (str_keyed_tag _ Hall) as (l' & Hl').
  destruct l' as [|x0 [|y0 r0]]; try done. simpl in Hl'.
  injection Hl' as -> -> ->.
  change (insert_asc W (tag x0) (map tag (y0 :: r0))) with
    (rbind (py_lt W (fst (tag y0)) (fst (tag x0))) (fun lt =>
       if lt : bool then rbind (insert_asc W (tag x0) (map tag r0))
                               (fun r => Ok (tag y0 :: r))
       else Ok (tag x0 :: tag y0 :: map tag r0))).
  change (rbind _ _) with (insert_asc W (tag x0) (map tag (y0 :: r0))).
  rewrite insert_asc_tag. split.
  - rewrite <- Hperm. change (tag y0 :: map tag r0) with (map tag (y0 :: r0)).
    rewrite <- (map_cons tag x0). apply Permutation_map, insert_str_perm.
  - left. by constructor; [exists sx|].
Qed.

Lemma sort_key_dated_or_null w :
  dated_or_null w ->
  exists k, sort_key w = Ok k
            /\ (str_keyed (k, w) \/ null_keyed (k, w))
            /\ (null_dated w <-> k = JNull).
Proof.
  unfold dated_or_null, sort_key, null_dated, field, py_get, str_keyed,
    null_keyed.
  destruct w; try done. destruct (assoc "publication_date" d) as [v|].
  - destruct v; try done; intros _; eexists; (split; [done|]); simpl.
    + split; [by right|done].
    + split; [left; by eexists|]. split; done.
  - intros _. eexists. split; [done|]. simpl. split; [left; by eexists|].
    split; done.
Qed.

Lemma keyed_dated_or_null works :
  Forall dated_or_null works ->
  exists keyed,
    rmap_list (fun w => rbind (sort_key w) (fun k => Ok (k, w))) works = Ok keyed
    /\ map snd keyed = works
    /\ Forall (fun x => str_keyed x \/ null_keyed x) keyed
    /\ (Exists null_dated works -> Exists null_keyed keyed).
Proof.
  induction 1 as [|w ws Hw _ (keyed & Hk & Hs & Hf & He)].
  - exists []. repeat split; try done. by intros ?%Exists_nil.
  - destruct (sort_key_dated_or_null w Hw) as (k & Hkw & Hcase & Hnull).
    exists ((k, w) :: keyed). simpl. rewrite Hkw. simpl. rewrite Hk. simpl.
    split; [done|]. split; [by rewrite Hs|]. split; [by constructor|].
    intros [Hn|Hn]%Exists_cons.
    + left. by apply Hnull.
    + right. by apply He.
Qed.

(** X14. With dates that are strings, missing or null: a single work is
    returned as it is, whatever its date; among two or more works, one
    null [publication_date] makes the sort raise [TypeError]. *)
Theorem null_date_breaks_the_sort (works : list json) :
  Forall dated_or_null works ->
  ((length works <= 1)%nat -> sort_by_date W works = Ok works)
  /\ (Exists null_dated works -> (2 <= length works)%nat ->
      exists e, sort_by_date W works = Raise e /\ exn_cls e = TypeError).
Proof.
  intros Hd.
  destruct (keyed_dated_or_null works Hd) as (keyed & Hk & Hs & Hf & He).
  unfold sort_by_date. rewrite Hk. simpl.
  assert (Forall (fun x => str_keyed x \/ null_keyed x) (rev keyed)) as Hf'
    by (by rewrite <- Permutation_rev).
  pose proof (sort_asc_str_or_null _ Hf') as Hsort.
  assert (length keyed = length works) as Hlen by (by rewrite <- Hs, length_map).
  split.
  - intros Hle. destruct works as [|w [|? ?]]; simpl in Hle; try lia.
    + by destruct keyed.
    + destruct keyed as [|x [|? ?]]; try done. simpl in *. by rewrite Hs.
  - intros Hnull Hge. specialize (He Hnull).
    destruct (sort_asc W (rev keyed)) as [r|e]; simpl.
    + exfalso. destruct Hsort as [_ [Hstr|Hle]].
      * rewrite <- Permutation_rev in Hstr.
        apply Exists_exists in He as (x & Hx & Hn).
        rewrite Forall_forall in Hstr. destruct (Hstr x Hx) as [s Hsx].
        unfold null_keyed in Hn. congruence.
      * rewrite length_rev in Hle. lia.
    + exists e. by destruct Hsort.
Qed.

End SortFurther.

Lemma sort_idempotent_witness :
  exists sorted,
    sort_by_date example_world [work_may; work_undated; work_march] = Ok sorted
    /\ sort_by_date example_world sorted = Ok sorted.
Proof.
  apply (sort_by_date_is_idempotent example_world
           [work_may; work_undated; work_march]).
  repeat constructor.
Defined.

Lemma null_date_witness :
  exists e,
    sort_by_date example_world [work_may; work_null_date] = Raise e
    /\ exn_cls e = TypeError.
Proof.
  apply (null_date_breaks_the_sort example_world [work_may; work_null_date]).
  - repeat constructor.
  - apply Exists_cons_tl, Exists_cons_hd. reflexivity.
  - simpl. lia.
Defined.

(** ** [generate_rss_feed], further *)

Section TitleAndLink.

Lemma contains_char_append c a b :
  contains_char c (a +:+ b) = contains_char c a || contains_char c b.
Proof.
  induction a as [|x a IH]; [done|]. rewrite append_cons.
  cbn [contains_char]. by destruct (Ascii.eqb c x).
Qed.

Lemma replace_char_removes c by_ s :
  contains_char c by_ = false ->
  contains_char c (replace_char c by_ s) = false.
Proof.
  intros Hby. induction s as [|c' s IH]; simpl; [done|].
  destruct (Ascii.eqb c c') eqn:E.
  - by rewrite contains_char_append, Hby, IH.
  - cbn [contains_char]. by rewrite E.
Qed.

Lemma replace_char_keeps_other c c' by_ s :
  Ascii.eqb c c' = false ->
  contains_char c by_ = false ->
  contains_char c (replace_char c' by_ s) = contains_char c s.
Proof.
  intros Hne Hby. induction s as [|a s IH]; simpl; [done|].
  destruct (Ascii.eqb c' a) eqn:E.
  - apply Ascii.eqb_eq in E as <-.
    by rewrite Hne, contains_char_append, Hby, IH.
  - cbn [contains_char]. by rewrite IH.
Qed.

Lemma replace_char_absent c by_ s :
  contains_char c s = false -> replace_char c by_ s = s.
Proof.
  induction s as [|a s IH]; simpl; [done|].
  destruct (Ascii.eqb c a); [done|]. intros H. by rewrite IH.
Qed.

(** X15. The title of an entry contains neither [<] nor [>]; a title
    without them is not changed (ampersands and quotes stay as they are),
    so escaping twice is escaping once; a title that is no string, such
    as null, raises [AttributeError]. *)
Theorem escaped_title_has_no_angle_brackets (v : json) :
  match py_escape_title v with
  | Ok t =>
      contains_char "<"%char t = false
      /\ contains_char ">"%char t = false
      /\ py_escape_title (JStr t) = Ok t
      /\ exists s, v = JStr s
                   /\ (contains_char "<"%char s = false ->
                       contains_char ">"%char s = false -> t = s)
  | Raise e => e = no_attribute v "replace" /\ forall s, v <> JStr s
  end.
Proof.
  destruct v; simpl; try done.
  assert (contains_char "<"%char
            (replace_char ">"%char "&gt;" (replace_char "<"%char "&lt;" s)) = false)
    as H1.
  { rewrite replace_char_keeps_other by done. by apply replace_char_removes. }
  assert (contains_char ">"%char
            (replace_char ">"%char "&gt;" (replace_char "<"%char "&lt;" s)) = false)
    as H2 by (by apply replace_char_removes).
  split; [done|]. split; [done|]. split.
  - f_equal. rewrite (replace_char_absent "<"%char) by done.
    by apply replace_char_absent.
  - exists s. split; [done|]. intros Hl Hg.
    rewrite (replace_char_absent "<"%char) by done.
    by apply replace_char_absent.
Qed.

Lemma py_join_strs sep l : py_join sep (map JStr l) = Ok (join sep l).
Proof.
  unfold py_join.
  assert (rmap_list as_str (map JStr l) = Ok l) as ->; [|done].
  induction l as [|x l IH]; [done|]. simpl. by rewrite IH.
Qed.

End TitleAndLink.

Section RenderFurther.

Context (W : World).

Lemma link_of_str doi :
  link_of (JStr doi)
  = Ok (if starts_with "http" doi then doi
        else if String.eqb doi "" then "https://openalex.org"
        else "https://doi.org/" +:+ doi).
Proof.
  unfold link_of, truthy. destruct (starts_with "http" doi); [reflexivity|].
  destruct (String.eqb doi ""); reflexivity.
Qed.

Lemma link_of_http doi_raw link :
  link_of doi_raw = Ok link -> starts_with "http" link = true.
Proof.
  destruct doi_raw; try discriminate. rewrite link_of_str.
  intros H. assert (link = if starts_with "http" s then s
                           else if String.eqb s "" then "https://openalex.org"
                           else "https://doi.org/" +:+ s) as ->
    by congruence.
  clear H. destruct (starts_with "http" s) eqn:E; [exact E|].
  destruct (String.eqb s ""); reflexivity.
Qed.

(** X16. For every entry rendered, the id is the link, and the link is
    the doi itself when it starts with [http], the doi after
    [https://doi.org/] when it is another non-empty string, and
    [https://openalex.org] when it is empty or missing: in every case an
    address that starts with [http]. *)
Theorem entry_link_is_an_http_address (work : json) (e : entry) :
  item_entry W work = Ok e ->
  entry_id e = entry_link e
  /\ starts_with "http" (entry_link e) = true
  /\ exists doi,
       py_get work "doi" (JStr "") = Ok (JStr doi)
       /\ entry_link e
          = (if starts_with "http" doi then doi
             else if String.eqb doi "" then "https://openalex.org"
             else "https://doi.org/" +:+ doi).
Proof.
  unfold item_entry, entry_fields. intros H.
  apply rbind_Ok in H as ([e0 pd] & H & He).
  apply rbind_Ok in H as (raw_title & _ & H).
  apply rbind_Ok in H as (title & _ & H).
  apply rbind_Ok in H as (doi_raw & Hdoi & H).
  apply rbind_Ok in H as (abstract & _ & H).
  apply rbind_Ok in H as (date & _ & H).
  apply rbind_Ok in H as (authors & _ & H).
  apply rbind_Ok in H as (link_url & Hlink & H).
  injection H as <- <-. cbn [fst snd] in He.
  assert (entry_id e = link_url /\ entry_link e = link_url) as [-> ->].
  { destruct (pubdate_text W date); injection He as <-; by split. }
  clear He. split; [reflexivity|]. split; [by eapply link_of_http|].
  destruct doi_raw; try discriminate. exists s. split; [assumption|].
  rewrite link_of_str in Hlink. congruence.
Qed.

Lemma rmap_list_Exists_raise {A B} (f : A -> result B) l :
  Exists (fun x => exists e, f x = Raise e) l -> exists e, rmap_list f l = Raise e.
Proof.
  induction 1 as [x l [e He]|x l _ [e IH]]; simpl.
  - rewrite He. by eexists.
  - destruct (f x); simpl; [|by eexists]. rewrite IH. by eexists.
Qed.

Lemma null_doi_or_title_fails d :
  assoc "doi" d = Some JNull \/ assoc "title" d = Some JNull ->
  exists e, entry_fields W (JDict d) = Raise e.
Proof.
  intros Hnull. unfold entry_fields. simpl.
  destruct (py_escape_title _) as [title|] eqn:Ht; simpl; [|by eexists].
  destruct (author_names (JDict d)); simpl; [|by eexists].
  destruct Hnull as [Hd|Hn].
  - rewrite Hd. simpl. by eexists.
  - rewrite Hn in Ht. done.
Qed.

Lemma author_names_spec d l names :
  match assoc "authorships" d with Some v => v | None => JList [] end = JList l ->
  Forall2 (fun a n => display_name a = Some n) l names ->
  author_names (JDict d) = Ok (join ", " names).
Proof.
  intros Hl Hn. unfold author_names. simpl. rewrite Hl. simpl.
  assert (rmap_list
            (fun a => rbind (py_getitem a "author")
                        (fun author => py_getitem author "display_name")) l
          = Ok (map JStr names)) as ->.
  { clear Hl. induction Hn as [|a n l names Ha _ IH]; [done|]. simpl.
    rewrite IH. unfold display_name in Ha. destruct a; try done. simpl.
    destruct (assoc "author" d0) as [[]|]; try done. simpl.
    destruct (assoc "display_name" d1) as [[]|]; try done. by injection Ha as ->. }
  cbn [rbind]. apply py_join_strs.
Qed.

(** X26. The description of an entry names the authors in the order of
    the authorships, joined by a comma and a space (none when the work has
    no [authorships]), and then the abstract, or [No abstract available]
    when the work has none. *)
Theorem description_lists_the_authors
    (d : list (string * json)) (l : list json) (names : list string)
    (e : entry) (pub_date : json) :
  match assoc "authorships" d with Some v => v | None => JList [] end = JList l ->
  Forall2 (fun a n => display_name a = Some n) l names ->
  entry_fields W (JDict d) = Ok (e, pub_date) ->
  entry_description e
  = "<b>Authors:</b> " +:+ join ", " names
    +:+ "<br/><br/><b>Abstract:</b><br/>"
    +:+ py_str W (match assoc "abstract" d with
                  | Some v => v
                  | None => JStr "No abstract available"
                  end).
Proof.
  intros Hl Hn He. unfold entry_fields in He.
  rewrite (author_names_spec _ _ _ Hl Hn) in He.
  apply rbind_Ok in He as (raw_title & _ & He).
  apply rbind_Ok in He as (title & _ & He).
  apply rbind_Ok in He as (doi_raw & _ & He).
  apply rbind_Ok in He as (abstract & Ha & He).
  apply rbind_Ok in He as (date & _ & He).
  apply rbind_Ok in He as (authors & Hau & He).
  apply rbind_Ok in He as (link_url & _ & He).
  assert (authors = join ", " names) as -> by congruence.
  assert (abstract = match assoc "abstract" d with
                     | Some v => v
                     | None => JStr "No abstract available"
                     end) as -> by (unfold py_get in Ha; congruence).
  assert (e = {| entry_id := link_url; entry_title := title;
                 entry_link := link_url;
                 entry_description :=
                   "<b>Authors:</b> " +:+ join ", " names
                   +:+ "<br/><br/><b>Abstract:</b><br/>"
                   +:+ py_str W (match assoc "abstract" d with
                                 | Some v => v
                                 | None => JStr "No abstract available"
                                 end);
                 entry_pubDate := None |}) as -> by congruence.
  reflexivity.
Qed.

(** X17. One item whose fields do not render makes the whole feed fail:
    [generate_rss_feed] raises and writes no file, whatever the other
    items are.  A work whose [doi] or [title] is null is such an item. *)
Theorem one_bad_item_fails_the_feed
    (feed_title : json) (items : list json) (output_file : string) (st : state) :
  Exists (fun w => exists e, entry_fields W w = Raise e) items ->
  (exists e st',
      generate_rss_feed W feed_title items output_file st = (Raise e, st')
      /\ files st' = files st)
  /\ (forall d,
        assoc "doi" d = Some JNull \/ assoc "title" d = Some JNull ->
        exists e, entry_fields W (JDict d) = Raise e).
Proof.
  intros Hbad. split; [|apply null_doi_or_title_fails].
  destruct (generate_rss_feed_spec W feed_title items output_file st)
    as (st1 & Hf & _ & _ & ->).
  destruct (rmap_list_Exists_raise (item_entry W) items) as [e ->].
  { eapply Exists_impl; [exact Hbad|]. intros w [e He].
    unfold item_entry. rewrite He. by eexists. }
  by eexists _, _.
Qed.

(** X18. The output path of a feed whose name is a string without slash
    is [feeds/<name>.xml], and the self link of the feed, derived from the
    base name of that path, is
    [https://openalex.org/feeds/<name>.xml]. *)
Theorem feed_path_and_self_link (name : string) (entries : list entry) :
  contains_char slash name = false ->
  let path := os_path_join feeds_dir (py_str W (JStr name) +:+ ".xml") in
  path = "feeds/" +:+ name +:+ ".xml"
  /\ last_segment path = name +:+ ".xml"
  /\ fg_links (feed_of W (JStr name) path entries)
     = [("https://openalex.org", "alternate");
        ("https://openalex.org/feeds/" +:+ name +:+ ".xml", "self")].
Proof.
  intros Hname path.
  assert (contains_char slash (name +:+ ".xml") = false) as Hfile.
  { clear path. induction name as [|c name IH]; [done|].
    rewrite append_cons. cbn [contains_char] in *.
    destruct (Ascii.eqb slash c); [done|]. by apply IH. }
  assert (path = "feeds" +:+ String slash (name +:+ ".xml")) as Hpath.
  { unfold path, os_path_join. simpl py_str.
    assert (starts_with "/" (name +:+ ".xml") = false) as ->; [|done].
    destruct name as [|c name]; [done|]. rewrite append_cons.
    change "/" with (String slash EmptyString). cbn [starts_with].
    cbn [contains_char] in Hname.
    destruct (Ascii.eqb slash c); [discriminate Hname|reflexivity]. }
  assert (last_segment path = name +:+ ".xml") as Hlast
    by (rewrite Hpath; by apply last_segment_after_slash).
  split; [by rewrite Hpath|]. split; [done|].
  unfold feed_of. cbn [fg_links]. by rewrite Hlast.
Qed.

End RenderFurther.

Lemma entry_link_witness :
  exists e,
    item_entry example_world work_march = Ok e
    /\ entry_id e = entry_link e
    /\ starts_with "http" (entry_link e) = true
    /\ entry_link e = "https://doi.org/10.1/xyz".
Proof.
  eexists. split; [reflexivity|].
  destruct (entry_link_is_an_http_address example_world work_march _ eq_refl)
    as (H1 & H2 & _).
  split; [exact H1|]. split; [exact H2|reflexivity].
Defined.

Lemma bad_item_witness :
  exists e st',
    generate_rss_feed example_world (JStr "polymers")
      [work_march; work_null_doi; work_may] "feeds/polymers.xml" initial_state
    = (Raise e, st')
    /\ files st' = files initial_state.
Proof.
  apply (one_bad_item_fails_the_feed example_world (JStr "polymers")
           [work_march; work_null_doi; work_may] "feeds/polymers.xml"
           initial_state).
  apply Exists_cons_tl, Exists_cons_hd. by eexists.
Defined.

Lemma feed_path_witness :
  os_path_join feeds_dir (py_str example_world (JStr "polymers") +:+ ".xml")
  = "feeds/polymers.xml".
Proof.
  apply (feed_path_and_self_link example_world "polymers" []).
  reflexivity.
Defined.

(** ** The orchestrator, further *)

Section MainFurther.

Context (W : World).

Lemma main_query_keyword email T q feed_name search_str st :
  assoc "type" q = None \/ assoc "type" q = Some (JStr "keyword") ->
  assoc "feed_name" q = Some feed_name ->
  assoc "search" q = Some search_str ->
  main_query W email T (JDict q) st
  = bind (fetch_openalex_works W (keyword_params search_str) email 50)
         (fun works =>
            filter_sort_render W feed_name (output_path_of W feed_name)
              works email T) st.
Proof.
  intros Hty Hf Hs.
  unfold main_query, bind, lift, py_get, py_getitem, output_path_of.
  assert (match assoc "type" q with Some v => v | None => JStr "keyword" end
          = JStr "keyword") as -> by (by destruct Hty as [-> | ->]).
  rewrite Hf. unfold query_works. simpl.
  unfold bind, lift, py_getitem, ret. rewrite Hs.
  by destruct (fetch_openalex_works W (keyword_params search_str) email 50 st)
    as [[works|e] st1].
Qed.

(** X19. A keyword query (with [type: keyword] or without [type]) whose
    search finds nothing still writes its feed: one request, the lines
    for the URL, for 0 works of 0, for the feed without items and for the
    feed generated, and a feed without entries at [feeds/<name>.xml];
    the threshold is not looked at. *)
Theorem empty_result_still_writes_a_feed
    (email T : json) (q : list (string * json)) (feed_name search_str : json)
    (st : state) (response : response) (data : json) :
  assoc "type" q = None \/ assoc "type" q = Some (JStr "keyword") ->
  assoc "feed_name" q = Some feed_name ->
  assoc "search" q = Some search_str ->
  let rq := works_request (keyword_params search_str) email 50 in
  let path := output_path_of W feed_name in
  requests_get W (requests_made st) rq = Ok response ->
  resp_status response = Ok tt ->
  resp_json response = Ok data ->
  py_getitem data "results" = Ok (JList []) ->
  rss_write W (feed_of W feed_name path []) path = Ok tt ->
  main_query W email T (JDict q) st
  = (Ok tt,
     log_line (GeneratedFeed path)
       (log_file path (feed_of W feed_name path [])
          (log_lines [QueryURL (resp_url response); Returned feed_name 0 0;
                      NoItems feed_name]
             (log_request rq st)))).
Proof.
  intros Hty Hf Hs rq path Hr Hst Hj Hres Hw.
  rewrite (main_query_keyword _ _ _ _ _ _ Hty Hf Hs).
  unfold bind at 1. rewrite fetch_spec. cbv zeta. fold rq. rewrite Hr, Hst, Hj.
  cbn [rbind]. rewrite Hres.
  unfold filter_sort_render, generate_rss_feed, bind, lift, print, ret,
    rss_file. simpl. fold path. by rewrite Hw.
Qed.

Lemma bind_Ok_eq {A B} (m : M A) (k : A -> M B) st a st' X :
  m st = (Ok a, st') -> k a st' = X -> bind m k st = X.
Proof. intros Hm <-. unfold bind. by rewrite Hm. Qed.

Lemma bind_Raise_eq {A B} (m : M A) (k : A -> M B) st e st' :
  m st = (Raise e, st') -> bind m k st = (Raise e, st').
Proof. intros Hm. unfold bind. by rewrite Hm. Qed.

Lemma author_id_name_Some a i n :
  author_id_name a = Some (i, n) ->
  py_getitem a "id" = Ok (JStr i) /\ py_getitem a "name" = Ok n.
Proof.
  unfold author_id_name, py_getitem. destruct a; try done.
  destruct (assoc "id" d) as [[]|]; try done.
  destruct (assoc "name" d); [|done]. by intros [= <- <-].
Qed.

Lemma author_ids authors pairs :
  Forall2 (fun a p => author_id_name a = Some p) authors pairs ->
  rmap_list (fun a => py_getitem a "id") authors
  = Ok (map (fun p => JStr (fst p)) pairs).
Proof.
  induction 1 as [|a [i n] authors pairs Ha _ IH]; [done|]. simpl.
  destruct (author_id_name_Some _ _ _ Ha) as [-> _]. simpl. by rewrite IH.
Qed.

Lemma mapM_print_authors authors pairs :
  Forall2 (fun a p => author_id_name a = Some p) authors pairs ->
  forall st,
    exists us,
      mapM (fun a =>
              bind (lift (py_getitem a "name")) (fun name =>
              bind (lift (py_getitem a "id")) (fun id =>
              print (TrackedAuthor name id)))) authors st
      = (Ok us,
         log_lines (map (fun p => TrackedAuthor (snd p) (JStr (fst p))) pairs) st).
Proof.
  induction 1 as [|a [i n] authors pairs Ha _ IH]; intros st; [by eexists|].
  destruct (author_id_name_Some _ _ _ Ha) as [Hi Hn].
  simpl. unfold bind at 1. unfold bind at 1, lift at 1. rewrite Hn.
  unfold bind at 1, lift at 1. rewrite Hi. unfold print at 1.
  destruct (IH (log_line (TrackedAuthor n (JStr i)) st)) as [us Hus].
  unfold bind at 1. rewrite Hus. by eexists.
Qed.

(** X20. An [authors] query whose authors all have a string [id] and a
    [name] prints the heading and one line per author, in order, and then
    fetches with the filter
    [from_publication_date:2023-01-01,author.id:<ids joined by |>] and no
    [search] parameter. *)
Theorem authors_query_filters_by_joined_ids
    (email : json) (q : list (string * json)) (authors : list json)
    (pairs : list (string * json)) (st : state) :
  assoc "authors" q = Some (JList authors) ->
  Forall2 (fun a p => author_id_name a = Some p) authors pairs ->
  let params := authors_params (join "|" (map fst pairs)) in
  query_works W (JDict q) (JStr "authors") email st
  = bind (fetch_openalex_works W params email 50) (fun works => ret (Some works))
      (log_lines (TrackingAuthors
                  :: map (fun p => TrackedAuthor (snd p) (JStr (fst p))) pairs) st)
  /\ assoc "filter" params
     = Some (JStr ("from_publication_date:2023-01-01,author.id:"
                   +:+ join "|" (map fst pairs)))
  /\ assoc "search" params = None.
Proof.
  intros Ha Hp params. split; [|done].
  assert (py_getitem (JDict q) "authors" = Ok (JList authors)) as Hget
    by (unfold py_getitem; by rewrite Ha).
  destruct (mapM_print_authors _ _ Hp (log_line TrackingAuthors st)) as [us Hus].
  unfold query_works.
  change (py_eq_str (JStr "authors") "keyword") with false.
  change (py_eq_str (JStr "authors") "authors") with true. cbv iota.
  eapply bind_Ok_eq; [unfold lift; by rewrite Hget|].
  eapply bind_Ok_eq; [reflexivity|].
  eapply bind_Ok_eq; [unfold lift; by rewrite (author_ids _ _ Hp)|].
  eapply bind_Ok_eq; [reflexivity|].
  eapply bind_Ok_eq; [unfold lift; by rewrite Hget|].
  eapply bind_Ok_eq; [reflexivity|].
  eapply bind_Ok_eq; [exact Hus|].
  eapply bind_Ok_eq;
    [unfold lift; by rewrite <- (map_map fst JStr), py_join_strs|].
  reflexivity.
Qed.

(** X21. An [authors] query with an author (a mapping) that has no [id]
    raises [KeyError] before anything is printed or requested, when the
    authors listed before it have one. *)
Theorem author_without_id_raises_first
    (email : json) (q : list (string * json)) (before after : list json)
    (d : list (string * json)) (st : state) :
  assoc "authors" q = Some (JList (before ++ JDict d :: after)) ->
  Forall (fun a => exists v, py_getitem a "id" = Ok v) before ->
  assoc "id" d = None ->
  query_works W (JDict q) (JStr "authors") email st
  = (Raise (Exn KeyError "id"), st).
Proof.
  intros Ha Hb Hd.
  assert (py_getitem (JDict q) "authors" = Ok (JList (before ++ JDict d :: after)))
    as Hget by (unfold py_getitem; by rewrite Ha).
  assert (rmap_list (fun a => py_getitem a "id") (before ++ JDict d :: after)
          = Raise (Exn KeyError "id")) as Hids.
  { clear Ha Hget. induction Hb as [|a before [v Hv] _ IH]; simpl.
    - by rewrite Hd.
    - rewrite Hv. simpl. by rewrite IH. }
  unfold query_works.
  change (py_eq_str (JStr "authors") "keyword") with false.
  change (py_eq_str (JStr "authors") "authors") with true. cbv iota.
  eapply bind_Ok_eq; [unfold lift; by rewrite Hget|].
  eapply bind_Ok_eq; [reflexivity|].
  eapply bind_Raise_eq. unfold lift. by rewrite Hids.
Qed.

(** X27. What a query must have: a query that is no mapping raises
    [AttributeError]; a mapping without [feed_name] raises [KeyError],
    whatever its type; a keyword query without [search] and an authors
    query without [authors] raise [KeyError]; each before anything is
    printed or requested. *)
Theorem query_with_missing_key_raises
    (email T : json) (q : list (string * json)) (st : state) :
  (forall v, is_dict v = false ->
             main_query W email T v st = (Raise (no_attribute v "get"), st))
  /\ (assoc "feed_name" q = None ->
      main_query W email T (JDict q) st = (Raise (Exn KeyError "feed_name"), st))
  /\ (forall feed_name,
        assoc "feed_name" q = Some feed_name ->
        (assoc "type" q = None \/ assoc "type" q = Some (JStr "keyword")) ->
        assoc "search" q = None ->
        main_query W email T (JDict q) st = (Raise (Exn KeyError "search"), st))
  /\ (forall feed_name,
        assoc "feed_name" q = Some feed_name ->
        assoc "type" q = Some (JStr "authors") ->
        assoc "authors" q = None ->
        main_query W email T (JDict q) st = (Raise (Exn KeyError "authors"), st)).
Proof.
  split; [|split; [|split]].
  - intros v Hv. by destruct v.
  - intros Hf. unfold main_query, bind, lift, py_get, py_getitem. by rewrite Hf.
  - intros feed_name Hf Hty Hs.
    unfold main_query, bind, lift, py_get, py_getitem. rewrite Hf.
    assert (match assoc "type" q with Some v => v | None => JStr "keyword" end
            = JStr "keyword") as -> by (by destruct Hty as [-> | ->]).
    unfold query_works. simpl. unfold bind, lift, py_getitem. by rewrite Hs.
  - intros feed_name Hf Hty Ha.
    unfold main_query, bind, lift, py_get, py_getitem. rewrite Hf, Hty.
    unfold query_works. simpl. unfold bind, lift, py_getitem. by rewrite Ha.
Qed.

(** X22. No query is isolated from the others: when the request of a
    keyword query raises, the loop ends with that exception, the request
    being all that happened; the queries after it are not run. *)
Theorem failed_fetch_ends_the_run
    (email T : json) (key : string) (q : list (string * json))
    (feed_name search_str : json) (rest : list (string * json))
    (st : state) (e : exn) :
  assoc "type" q = None \/ assoc "type" q = Some (JStr "keyword") ->
  assoc "feed_name" q = Some feed_name ->
  assoc "search" q = Some search_str ->
  let rq := works_request (keyword_params search_str) email 50 in
  requests_get W (requests_made st) rq = Raise e ->
  main_loop W email T ((key, JDict q) :: rest) st
  = (Raise e, log_request rq st).
Proof.
  intros Hty Hf Hs rq Hr. simpl. unfold bind at 1.
  rewrite (main_query_keyword _ _ _ _ _ _ Hty Hf Hs).
  unfold bind at 1. rewrite fetch_spec. cbv zeta. fold rq. by rewrite Hr.
Qed.

(** X23. The loop over the queries composes: running a list of queries
    followed by another is running the first list and, unless it raised,
    the second list from the state it reached. *)
Theorem main_loop_app
    (email T : json) (qs1 qs2 : list (string * json)) (st : state) :
  main_loop W email T (qs1 ++ qs2) st
  = match main_loop W email T qs1 st with
    | (Ok _, st1) => main_loop W email T qs2 st1
    | (Raise e, st1) => (Raise e, st1)
    end.
Proof.
  revert st. induction qs1 as [|[key q] qs1 IH]; intros st; [done|].
  simpl. unfold bind.
  destruct (main_query W email T q st) as [[[]|e] st1]; [apply IH|done].
Qed.

(** X24. What [main] does with the configuration it loaded: a mapping
    without [email], or with [email] and without [queries], raises
    [KeyError]; a [queries] that is no mapping raises [AttributeError]; a
    configuration that is null (an empty file) raises [TypeError]; each
    before anything is requested, printed or written.  Otherwise the loop
    runs over the queries, in their order, with the configured threshold,
    or [0.0] when there is none. *)
Theorem main_reads_the_configuration
    (c : list (string * json)) (st : state) :
  os_makedirs W feeds_dir = Ok tt ->
  (load_settings W settings_path = Ok JNull ->
   exists e, main W st = (Raise e, st) /\ exn_cls e = TypeError)
  /\ (load_settings W settings_path = Ok (JDict c) ->
      match assoc "email" c, assoc "queries" c with
      | None, _ => main W st = (Raise (Exn KeyError "email"), st)
      | Some _, None => main W st = (Raise (Exn KeyError "queries"), st)
      | Some email, Some (JDict qs) =>
          main W st
          = main_loop W email
              (match assoc "impact_threshold" c with
               | Some t => t
               | None => JFloat zero
               end) qs st
      | Some _, Some v => main W st = (Raise (no_attribute v "items"), st)
      end).
Proof.
  intros Hm. split.
  - intros Hl. unfold main, bind, lift. rewrite Hm, Hl. by eexists.
  - intros Hl. unfold main, bind, lift. rewrite Hm, Hl. simpl.
    destruct (assoc "email" c) as [email|]; [|done].
    destruct (assoc "queries" c) as [v|]; [|done].
    by destruct v.
Qed.

End MainFurther.

(** ** Files are only appended *)

Section FilesGrowth.

Context (W : World).

Lemma appends_weaken {A} n k (m : M A) :
  (n <= k)%nat -> appends_files n m -> appends_files k m.
Proof.
  intros Hle Hm st r st' H. destruct (Hm _ _ _ H) as (new & ? & ?).
  exists new. split; [done|lia].
Qed.

Lemma appends_same {A} (m : M A) :
  (forall st r st', m st = (r, st') -> files st' = files st) ->
  appends_files 0 m.
Proof.
  intros Hm st r st' H. exists []. rewrite app_nil_r. split; [by eapply Hm|done].
Qed.

Lemma appends_ret {A} (a : A) : appends_files 0 (ret a).
Proof. apply appends_same. by intros st r st' [= _ <-]. Qed.

Lemma appends_lift {A} (r : result A) : appends_files 0 (lift r).
Proof. apply appends_same. by intros st r' st' [= _ <-]. Qed.

Lemma appends_print l : appends_files 0 (print l).
Proof. apply appends_same. by intros st r st' [= _ <-]. Qed.

Lemma appends_http_get url params : appends_files 0 (http_get W url params).
Proof. apply appends_same. by intros st r st' [= _ <-]. Qed.

Lemma appends_scorer work email :
  appends_files 0 (get_journal_impact_score W work email).
Proof. apply appends_same. apply scorer_files. Qed.

Lemma appends_rss_file fg path : appends_files 1 (rss_file W fg path).
Proof.
  intros st r st'. unfold rss_file.
  destruct (rss_write W fg path); intros [= _ <-].
  - by exists [(path, fg)].
  - exists []. rewrite app_nil_r. split; [done|simpl; lia].
Qed.

Lemma appends_bind {A B} n k (m : M A) (f : A -> M B) :
  appends_files n m -> (forall a, appends_files k (f a)) ->
  appends_files (n + k) (bind m f).
Proof.
  intros Hm Hf st r st'. unfold bind.
  destruct (m st) as [[a|e] st1] eqn:E.
  - intros H. destruct (Hm _ _ _ E) as (new1 & H1 & L1).
    destruct (Hf _ _ _ _ H) as (new2 & H2 & L2).
    exists (new1 ++ new2)%list. rewrite H2, H1, app_assoc, length_app.
    split; [done|lia].
  - intros [= _ <-]. destruct (Hm _ _ _ E) as (new1 & H1 & L1).
    exists new1. split; [done|lia].
Qed.

Lemma appends_bind_l {A B} k (m : M A) (f : A -> M B) :
  appends_files 0 m -> (forall a, appends_files k (f a)) ->
  appends_files k (bind m f).
Proof. intros. by apply (appends_bind 0 k). Qed.

Lemma appends_bind_r {A B} n (m : M A) (f : A -> M B) :
  appends_files n m -> (forall a, appends_files 0 (f a)) ->
  appends_files n (bind m f).
Proof.
  intros. apply (appends_weaken (n + 0)); [lia|]. by apply appends_bind.
Qed.

Lemma appends_try {A} (m : M A) (h : exn -> M A) :
  appends_files 0 m -> (forall e, appends_files 0 (h e)) ->
  appends_files 0 (try_except m h).
Proof.
  intros Hm Hh. apply appends_same. intros st r st'. unfold try_except.
  destruct (m st) as [[a|e] st1] eqn:E.
  - intros [= _ <-]. destruct (Hm _ _ _ E) as ([|] & ? & ?); simpl in *; [|lia].
    by rewrite app_nil_r in *.
  - intros H. destruct (Hm _ _ _ E) as ([|] & H1 & ?); simpl in *; [|lia].
    destruct (Hh _ _ _ _ H) as ([|] & H2 & ?); simpl in *; [|lia].
    rewrite app_nil_r in *. congruence.
Qed.

Lemma appends_mapM {A B} (f : A -> M B) (l : list A) :
  (forall x, appends_files 0 (f x)) -> appends_files 0 (mapM f l).
Proof.
  intros Hf. induction l as [|x l IH]; simpl; [apply appends_ret|].
  apply appends_bind_l; [done|]. intros y.
  apply appends_bind_l; [done|]. intros ys. apply appends_ret.
Qed.

Create HintDb files.

Hint Resolve appends_ret appends_lift appends_print appends_http_get
  appends_scorer appends_rss_file : files.

Ltac appends :=
  repeat first
    [ progress eauto with files
    | apply appends_bind_l; [solve [appends]|intros ?]
    | apply appends_bind_r; [|intros ?]
    | apply appends_try; [|intros ?]
    | apply appends_mapM; intros ?
    | match goal with
      | |- appends_files _ (if ?b then _ else _) => destruct b
      | |- appends_files _ (match ?x with _ => _ end) => destruct x
      end ].

Lemma appends_fetch params email n :
  appends_files 0 (fetch_openalex_works W params email n).
Proof. unfold fetch_openalex_works. appends. Qed.

Lemma appends_filter works email T :
  appends_files 0 (filter_by_impact W works email T).
Proof. induction works; simpl; appends. Qed.

Lemma appends_generate feed_title items output_file :
  appends_files 1 (generate_rss_feed W feed_title items output_file).
Proof. unfold generate_rss_feed, feed_item. appends. Qed.

Hint Resolve appends_fetch appends_filter appends_generate : files.

Lemma appends_query_works query query_type email :
  appends_files 0 (query_works W query query_type email).
Proof. unfold query_works. appends. Qed.

Hint Resolve appends_query_works : files.

Lemma appends_main_query email T query :
  appends_files 1 (main_query W email T query).
Proof.
  unfold main_query, filter_sort_render. appends.
  apply (appends_weaken 0); [lia|]. appends.
Qed.

(** X25. A run of the loop, whether it returns or raises, only appends
    to the files written, at most one file per query: what was written
    before an exception stays written. *)
Theorem main_loop_appends_at_most_one_file_per_query
    (email T : json) (queries : list (string * json))
    (st st' : state) (r : result unit) :
  main_loop W email T queries st = (r, st') ->
  exists new,
    files st' = (files st ++ new)%list
    /\ (length new <= length queries)%nat.
Proof.
  assert (appends_files (length queries) (main_loop W email T queries)) as Happ.
  { clear st st' r. induction queries as [|[key query] rest IH]; simpl.
    - apply appends_ret.
    - apply (appends_bind 1 (length rest)); [apply appends_main_query|done]. }
  intros H. exact (Happ _ _ _ H).
Qed.

(** X29. Within a run of the loop over the queries, whether it returns
    or raises, a memoised impact is never dropped nor changed. *)
Theorem memoised_impacts_never_change
    (email T : json) (queries : list (string * json)) (st st' : state)
    (r : result unit) (j : string) (impact : float) :
  main_loop W email T queries st = (r, st') ->
  journal_cache st !! j = Some impact ->
  journal_cache st' !! j = Some impact.
Proof.
  intros Hrun Hj.
  exact (lookup_weaken _ _ _ _ Hj (extends_main_loop W _ _ _ _ _ _ Hrun)).
Qed.

End FilesGrowth.


Lemma empty_result_witness :
  let email := JStr "me@example.org" in
  let q := [("feed_name", JStr "polymers"); ("search", JStr "polymer brushes")] in
  let rq := works_request (keyword_params (JStr "polymer brushes")) email 50 in
  main_query barren_world email (JStr "high") (JDict q) initial_state
  = (Ok tt,
     log_line (GeneratedFeed "feeds/polymers.xml")
       (log_file "feeds/polymers.xml"
          (feed_of barren_world (JStr "polymers") "feeds/polymers.xml" [])
          (log_lines [QueryURL works_url; Returned (JStr "polymers") 0 0;
                      NoItems (JStr "polymers")]
             (log_request rq initial_state)))).
Proof.
  intros email q rq.
  apply (empty_result_still_writes_a_feed barren_world email (JStr "high") q
           (JStr "polymers") (JStr "polymer brushes") initial_state
           {| resp_url := works_url; resp_status := Ok tt;
              resp_json := Ok (JDict [("results", JList [])]) |}
           (JDict [("results", JList [])]));
    first [reflexivity | by left].
Defined.

Lemma authors_query_witness :
  let email := JStr "me@example.org" in
  let q := [("type", JStr "authors"); ("feed_name", JStr "group");
            ("authors",
             JList [JDict [("name", JStr "Ada"); ("id", JStr "A1")];
                    JDict [("name", JStr "Bo"); ("id", JStr "A2")]])] in
  query_works example_world (JDict q) (JStr "authors") email initial_state
  = bind (fetch_openalex_works example_world (authors_params "A1|A2") email 50)
      (fun works => ret (Some works))
      (log_lines [TrackingAuthors; TrackedAuthor (JStr "Ada") (JStr "A1");
                  TrackedAuthor (JStr "Bo") (JStr "A2")] initial_state).
Proof.
  intros email q.
  apply (authors_query_filters_by_joined_ids example_world email q
           [JDict [("name", JStr "Ada"); ("id", JStr "A1")];
            JDict [("name", JStr "Bo"); ("id", JStr "A2")]]
           [("A1", JStr "Ada"); ("A2", JStr "Bo")] initial_state).
  - reflexivity.
  - repeat constructor.
Defined.

Lemma author_without_id_witness :
  let q := [("type", JStr "authors"); ("feed_name", JStr "group");
            ("authors",
             JList [JDict [("name", JStr "Ada"); ("id", JStr "A1")];
                    JDict [("name", JStr "Bo")]])] in
  query_works example_world (JDict q) (JStr "authors") JNull initial_state
  = (Raise (Exn KeyError "id"), initial_state).
Proof.
  intros q.
  apply (author_without_id_raises_first example_world JNull q
           [JDict [("name", JStr "Ada"); ("id", JStr "A1")]] []
           [("name", JStr "Bo")] initial_state).
  - reflexivity.
  - repeat constructor. by eexists.
  - reflexivity.
Defined.

Lemma failed_fetch_witness :
  let email := JStr "me@example.org" in
  let q := [("feed_name", JStr "polymers"); ("search", JStr "polymer brushes")] in
  main_loop offline_world email (JFloat zero)
    [("first", JDict q); ("second", JDict q)] initial_state
  = (Raise (Exn RequestException "Connection refused"),
     log_request (works_request (keyword_params (JStr "polymer brushes")) email 50)
       initial_state).
Proof.
  intros email q.
  apply (failed_fetch_ends_the_run offline_world email (JFloat zero) "first" q
           (JStr "polymers") (JStr "polymer brushes") [("second", JDict q)]
           initial_state);
    first [reflexivity | by left].
Defined.

Lemma main_configuration_witness :
  main example_world initial_state
  = main_loop example_world (JStr "me@example.org") (JFloat float_2_5)
      [("first", JDict [("type", JStr "foo"); ("feed_name", JStr "skipped")]);
       ("second", JDict [("feed_name", JStr "polymers");
                         ("search", JStr "polymer brushes")])]
      initial_state.
Proof.
  apply (proj2 (main_reads_the_configuration example_world
                  [("email", JStr "me@example.org");
                   ("impact_threshold", JFloat float_2_5);
                   ("queries",
                    JDict [("first", JDict [("type", JStr "foo");
                                            ("feed_name", JStr "skipped")]);
                           ("second", JDict [("feed_name", JStr "polymers");
                                             ("search", JStr "polymer brushes")])])]
                  initial_state eq_refl)).
  reflexivity.
Defined.

Lemma one_file_per_query_witness :
  let email := JStr "me@example.org" in
  let queries :=
    [("first", JDict [("type", JStr "foo"); ("feed_name", JStr "skipped")]);
     ("second", JDict [("feed_name", JStr "polymers");
                       ("search", JStr "polymer brushes")])] in
  exists new,
    files (snd (main_loop example_world email (JFloat float_2_5) queries
                  initial_state))
    = (files initial_state ++ new)%list
    /\ (length new <= length queries)%nat.
Proof.
  intros email queries.
  apply (main_loop_appends_at_most_one_file_per_query example_world email
           (JFloat float_2_5) queries initial_state _
           (fst (main_loop example_world email (JFloat float_2_5) queries
                   initial_state))).
  by destruct (main_loop example_world email (JFloat float_2_5) queries
                 initial_state).
Defined.

Lemma description_witness :
  exists e pub_date,
    entry_fields example_world work_two_authors = Ok (e, pub_date)
    /\ entry_description e
       = "<b>Authors:</b> Ada L., Bo K.<br/><br/><b>Abstract:</b><br/>Short.".
Proof.
  eexists _, _. split; [reflexivity|].
  apply (description_lists_the_authors example_world
           [("title", JStr "Joint work"); ("doi", JStr "10.1/joint");
            ("abstract", JStr "Short.");
            ("authorships",
             JList [JDict [("author", JDict [("display_name", JStr "Ada L.")])];
                    JDict [("author", JDict [("display_name", JStr "Bo K.")])]])]
           [JDict [("author", JDict [("display_name", JStr "Ada L.")])];
            JDict [("author", JDict [("display_name", JStr "Bo K.")])]]
           ["Ada L."; "Bo K."] _ (JStr "2024-01-01")).
  - reflexivity.
  - repeat constructor.
  - reflexivity.
Defined.

Lemma missing_key_witness :
  main_query example_world JNull JNull (JDict [("type", JStr "authors")])
    initial_state
  = (Raise (Exn KeyError "feed_name"), initial_state).
Proof.
  apply (query_with_missing_key_raises example_world JNull JNull
           [("type", JStr "authors")] initial_state).
  reflexivity.
Defined.

Lemma answered_lookup_witness :
  let email := JStr "me@example.org" in
  get_journal_impact_score example_world work_may email initial_state
  = (Ok float_2_5,
     store_impact "S1" float_2_5
       (log_request (sources_request "S1" email) initial_state)).
Proof.
  intros email.
  apply (answered_lookup_scores_the_citedness example_world work_may email "S1"
           initial_state
           {| resp_url := sources_url "S1"; resp_status := Ok tt;
              resp_json := Ok (sources_body (JFloat float_2_5)) |}
           [("id", JStr "S"); ("summary_stats",
                               JDict [("2yr_mean_citedness", JFloat float_2_5)])]
           [("2yr_mean_citedness", JFloat float_2_5)]); reflexivity.
Defined.

Lemma memoised_impacts_witness :
  let email := JStr "me@example.org" in
  let st := store_impact "S9" float_2_5 initial_state in
  let queries :=
    [("second", JDict [("feed_name", JStr "polymers");
                       ("search", JStr "polymer brushes")])] in
  journal_cache (snd (main_loop example_world email (JFloat float_2_5) queries st))
    !! "S9" = Some float_2_5.
Proof.
  intros email st queries.
  apply (memoised_impacts_never_change example_world email (JFloat float_2_5)
           queries st _
           (fst (main_loop example_world email (JFloat float_2_5) queries st))).
  - by destruct (main_loop example_world email (JFloat float_2_5) queries st).
  - reflexivity.
Defined.

(** ** What a keyword query asks of the API *)

Section KeywordQuery.

Context (W : World).

(** X30. A keyword query issues one request, whatever the answer: to
    the works endpoint, for the works matching its search text published
    since 2023-01-01, newest first, 50 per page, with the contact
    address; without a search text it raises [KeyError] and asks
    nothing. *)
Theorem keyword_query_asks_for_recent_works_newest_first
    (email : json) (q : list (string * json)) (st : state) :
  (forall search_str,
      assoc "search" q = Some search_str ->
      exists r st',
        query_works W (JDict q) (JStr "keyword") email st = (r, st')
        /\ requests_made st'
           = (requests_made st
              ++ [{| req_url := "https://api.openalex.org/works";
                     req_params :=
                       [("search", search_str);
                        ("filter", JStr "from_publication_date:2023-01-01");
                        ("sort", JStr "publication_date:desc");
                        ("per_page", JInt 50);
                        ("mailto", email)] |}])%list)
  /\ (assoc "search" q = None ->
      query_works W (JDict q) (JStr "keyword") email st
      = (Raise (Exn KeyError "search"), st)).
Proof.
  split.
  - intros search_str Hs. unfold query_works.
    change (py_eq_str (JStr "keyword") "keyword") with true. cbv iota.
    unfold bind at 1, lift at 1, py_getitem. rewrite Hs.
    unfold bind at 1. rewrite fetch_spec. cbv zeta.
    destruct (requests_get W (requests_made st) _) as [response|e].
    + destruct (rbind (resp_status response) _); by eexists _, _.
    + by eexists _, _.
  - intros Hs. unfold query_works.
    change (py_eq_str (JStr "keyword") "keyword") with true. cbv iota.
    unfold bind at 1, lift at 1, py_getitem. by rewrite Hs.
Qed.

End KeywordQuery.

Lemma keyword_query_witness :
  exists r st',
    query_works offline_world
      (JDict [("feed_name", JStr "polymers"); ("search", JStr "polymer brushes")])
      (JStr "keyword") (JStr "me@example.org") initial_state = (r, st')
    /\ requests_made st'
       = [{| req_url := "https://api.openalex.org/works";
             req_params :=
               [("search", JStr "polymer brushes");
                ("filter", JStr "from_publication_date:2023-01-01");
                ("sort", JStr "publication_date:desc");
                ("per_page", JInt 50);
                ("mailto", JStr "me@example.org")] |}].
Proof.
  apply (proj1 (keyword_query_asks_for_recent_works_newest_first offline_world
                  (JStr "me@example.org")
                  [("feed_name", JStr "polymers");
                   ("search", JStr "polymer brushes")] initial_state)).
  reflexivity.
Defined.
